(** * erfiume: station roster, enrichment and alert classification

    A shallow embedding of [app/erfiume/apis.py] and of the rendering
    function of [app/erfiume/tgbot.py], with the properties of the
    acquisition and enrichment pipeline stated over it.

    Conventions.
    - A Python [float] is an IEEE 754 binary64 value, here a [spec_float]
      of the Standard Library; comparisons are [SFcompare].
    - A Python [int] is a [Z].
    - Values decoded from JSON, and the attributes of the dataclasses that
      are filled from them, are dynamically typed: the dataclass
      annotations are not enforced at run time, so those attributes hold a
      [pyval].
    - A function that may raise returns an [outcome]; a function that also
      writes to the logger returns the log records it emitted next to its
      outcome.
    - The HTTP client is a function from the requested URL to what the
      request produced.
    - The tasks that [enrich_data] gathers run concurrently; they share
      nothing but the client, which they only read, so their results do
      not depend on the interleaving.  The log records of the tasks are
      listed in the order of the stations.
    - The station objects of a list are distinct, as the roster fetch
      builds them; an in-place update of a station is the update of its
      position in the list.
    - [to_dict] (the projection to [Decimal] values for storage) and the
      chat handlers of [tgbot.py] are not embedded. *)

From Stdlib Require Import ZArith String List Bool Lia.
From Stdlib Require Import Floats.SpecFloat Floats.PrimFloat Floats.FloatOps.
From stdpp Require Import base option gmap strings list fin_maps.

Set Warnings "-register-all".
Local Open Scope string_scope.
Local Open Scope list_scope.
Local Open Scope Z_scope.

(** ** Exceptions and outcomes *)

(** The exception classes that the modelled code raises, catches or lets
    through.  [TransportError] stands for what [client.get] itself raises
    (connection and timeout errors of httpx), [JSONDecodeError] for what
    [response.json()] raises on a body that is not JSON. *)
Inductive exn : Type :=
| HTTPStatusError (status_code : Z)
| TransportError
| JSONDecodeError
| KeyError
| IndexError
| TypeError
| ValueError
| AttributeError
| OverflowError.

Inductive outcome (A : Type) : Type :=
| Ok (a : A)
| Raise (e : exn).
Arguments Ok {A} a.
Arguments Raise {A} e.

#[global] Instance outcome_ret : MRet outcome := λ A a, Ok a.
#[global] Instance outcome_bind : MBind outcome :=
  λ A B f m, match m with Ok a => f a | Raise e => Raise e end.

(** Evaluation of a list comprehension whose element expression may raise:
    left to right, stopping at the first exception. *)
Fixpoint mapM {A B : Type} (f : A → outcome B) (l : list A) : outcome (list B) :=
  match l with
  | [] => Ok []
  | x :: l' => y ← f x; ys ← mapM f l'; Ok (y :: ys)
  end.

(** ** Floats *)

(** binary64: 53 bits of precision, exponents below 1024. *)
Definition prec : Z := 53.
Definition emax : Z := 1024.

Definition float_zero : spec_float := S754_zero false.
Definition float_one : spec_float := S754_finite false 4503599627370496 (-52).

(** [x >= y] and [x > y] on floats are [y <= x] and [y < x]. *)
Definition SFgeb (x y : spec_float) : bool := SFleb y x.
Definition SFgtb (x y : spec_float) : bool := SFltb y x.

(** ** Dynamically typed values *)

Inductive pyval : Type :=
| PNone
| PBool (b : bool)
| PInt (z : Z)
| PFloat (f : spec_float)
| PStr (s : string)
| PList (l : list pyval)
| PDict (d : gmap string pyval).

(** Truth value testing: [None], [False], zero of either sign, and empty
    strings, lists and dicts are false; everything else (NaN included) is
    true. *)
Definition truthy (x : pyval) : bool :=
  match x with
  | PNone => false
  | PBool b => b
  | PInt z => negb (z =? 0)
  | PFloat (S754_zero _) => false
  | PFloat _ => true
  | PStr s => negb (String.eqb s "")
  | PList l => match l with [] => false | _ :: _ => true end
  | PDict d => negb (Nat.eqb (size d) 0)
  end.

(** [a or b] *)
Definition py_or (a b : pyval) : pyval := if truthy a then a else b.

(** [float(z)] for an [int]: round to nearest, ties to even;
    [OverflowError] when the result does not fit. *)
Definition float_of_int (z : Z) : outcome spec_float :=
  match binary_normalize prec emax z 0 false with
  | S754_infinity _ => Raise OverflowError
  | f => Ok f
  end.

(** [int(f)] for a [float]: truncation towards zero. *)
Definition int_of_float (f : spec_float) : outcome Z :=
  match f with
  | S754_nan => Raise ValueError
  | S754_infinity _ => Raise OverflowError
  | S754_zero _ => Ok 0
  | S754_finite s m e =>
      let mag := Z.shiftl (Z.pos m) e in
      Ok (if s then - mag else mag)
  end.

(** Exact comparison of a float with an integer. *)
Definition float_cmp_int (f : spec_float) (z : Z) : option comparison :=
  match f with
  | S754_nan => None
  | S754_infinity s => Some (if s then Lt else Gt)
  | S754_zero _ => Some (0 ?= z)
  | S754_finite s m e =>
      let n := if s then Z.neg m else Z.pos m in
      Some (if 0 <=? e then n * 2 ^ e ?= z else n ?= z * 2 ^ (- e))
  end.

(** Rich comparison of a float with any value: defined against floats,
    ints and bools, [TypeError] otherwise. *)
Definition py_compare (x : spec_float) (y : pyval) : outcome (option comparison) :=
  match y with
  | PFloat g => Ok (SFcompare x g)
  | PInt z => Ok (float_cmp_int x z)
  | PBool b => Ok (float_cmp_int x (if b then 1 else 0))
  | _ => Raise TypeError
  end.

Definition py_le (x : spec_float) (y : pyval) : outcome bool :=
  c ← py_compare x y;
  Ok (match c with Some Eq | Some Lt => true | _ => false end).
Definition py_gt (x : spec_float) (y : pyval) : outcome bool :=
  c ← py_compare x y;
  Ok (match c with Some Gt => true | _ => false end).
Definition py_ge (x : spec_float) (y : pyval) : outcome bool :=
  c ← py_compare x y;
  Ok (match c with Some Eq | Some Gt => true | _ => false end).

(** [a and b] on conditions, the second evaluated only when the first
    holds. *)
Definition py_and (a b : outcome bool) : outcome bool :=
  x ← a; if (x : bool) then b else Ok false.

(** Whether [needle] occurs in [s]. *)
Definition substring_of (needle s : string) : bool :=
  match String.index 0 needle s with Some _ => true | None => false end.

(** Iteration.  A dict yields its keys and a string its characters (here
    its bytes, one string each); other values are not iterable. *)
Definition py_iter (x : pyval) : outcome (list pyval) :=
  match x with
  | PList l => Ok l
  | PDict d => Ok (PStr <$> (map_to_list d).*1)
  | PStr s => Ok ((λ c, PStr (String c "")) <$> list_ascii_of_string s)
  | _ => Raise TypeError
  end.

(** [x.items()] *)
Definition items (x : pyval) : outcome (gmap string pyval) :=
  match x with
  | PDict d => Ok d
  | _ => Raise AttributeError
  end.

(** [needle in x] for a string [needle] *)
Definition py_in (needle : string) (x : pyval) : outcome bool :=
  match x with
  | PDict d => Ok (bool_decide (is_Some (d !! needle)))
  | PList l =>
      Ok (existsb (λ y, match y with PStr s => String.eqb s needle | _ => false end) l)
  | PStr s => Ok (substring_of needle s)
  | _ => Raise TypeError
  end.

(** ** HTTP *)

Inductive Url : Type :=
| SensorValues (time : Z)
| TimeSeries (stazione : pyval).

(** A response: its status and its body decoded as JSON, [None] when the
    body is not JSON. *)
Record Response : Type := mkResponse {
  status_code : Z;
  body : option pyval
}.

(** [client.get(url)]: [None] when the request itself fails. *)
Definition Client : Type := Url → option Response.

Definition get (client : Client) (url : Url) : outcome Response :=
  match client url with
  | Some r => Ok r
  | None => Raise TransportError
  end.

(** [response.raise_for_status()]: raises unless the status is 2xx. *)
Definition raise_for_status (r : Response) : outcome unit :=
  if (200 <=? status_code r) && (status_code r <=? 299) then Ok tt
  else Raise (HTTPStatusError (status_code r)).

(** [response.json()] *)
Definition json (r : Response) : outcome pyval :=
  match body r with
  | Some x => Ok x
  | None => Raise JSONDecodeError
  end.

(** ** app/erfiume/apis.py *)

Module apis.

Definition UNKNOWN_VALUE : spec_float := S754_finite true 5497008383066112 (-39).

(** The attributes of a [Stazione].  [timestamp] is always an [int] in
    this module (the [time] argument of the roster fetch, then the [t] of
    a [Valore]); the others hold what the JSON record held. *)
Record Stazione : Type := mkStazione {
  timestamp : Z;
  idstazione : pyval;
  ordinamento : pyval;
  nomestaz : pyval;
  lon : pyval;
  lat : pyval;
  soglia1 : pyval;
  soglia2 : pyval;
  soglia3 : pyval;
  value : pyval
}.

Definition set_value (self : Stazione) (x : pyval) : Stazione :=
  mkStazione (timestamp self) (idstazione self) (ordinamento self) (nomestaz self)
    (lon self) (lat self) (soglia1 self) (soglia2 self) (soglia3 self) x.

Definition set_timestamp (self : Stazione) (x : Z) : Stazione :=
  mkStazione x (idstazione self) (ordinamento self) (nomestaz self)
    (lon self) (lat self) (soglia1 self) (soglia2 self) (soglia3 self) (value self).

(** [Stazione.__post_init__] *)
Definition Stazione_post_init (self : Stazione) : Stazione :=
  set_value self (py_or (value self) (PFloat UNKNOWN_VALUE)).

(** [Stazione(timestamp, idstazione, ..., value)]: the generated
    [__init__] stores the arguments, then runs [__post_init__]. *)
Definition Stazione_init (timestamp : Z)
    (idstazione ordinamento nomestaz lon lat soglia1 soglia2 soglia3 value : pyval)
    : Stazione :=
  Stazione_post_init
    (mkStazione timestamp idstazione ordinamento nomestaz lon lat
       soglia1 soglia2 soglia3 value).

(** [Stazione(timestamp=timestamp, **kw)].  The call raises [TypeError]
    when [kw] lacks one of the nine other attributes, or holds any other
    key ([timestamp], which would be given twice, included). *)
Definition Stazione_kw (timestamp : Z) (kw : gmap string pyval) : outcome Stazione :=
  match kw !! "idstazione", kw !! "ordinamento", kw !! "nomestaz",
        kw !! "lon", kw !! "lat",
        kw !! "soglia1", kw !! "soglia2", kw !! "soglia3", kw !! "value" with
  | Some i, Some o, Some n, Some lo, Some la, Some s1, Some s2, Some s3, Some x =>
      if Nat.eqb (size kw) 9
      then Ok (Stazione_init timestamp i o n lo la s1 s2 s3 x)
      else Raise TypeError
  | _, _, _, _, _, _, _, _, _ => Raise TypeError
  end.

Inductive logarg : Type :=
| ArgVal (x : pyval)
| ArgStatus (status_code : Z)
| ArgStation (stazione : Stazione).

(** A record written through [logger.exception] or [logger.error] (both at
    level ERROR): the message template and its arguments. *)
Record LogRecord : Type := mkLog {
  log_msg : string;
  log_args : list logarg
}.

(** The fields of the message, as the f-string of [create_station_message]
    interpolates them.  [value] is rebound to a string when it is the
    sentinel, so the field holds a float or a string. *)
Record MessageFields : Type := mkFields {
  f_nomestaz : pyval;
  f_value : spec_float + string;
  f_alarm : string;
  f_yellow : pyval;
  f_orange : pyval;
  f_red : pyval;
  f_timestamp : string
}.

Definition red_circle : string := "🔴".
Definition green_circle : string := "🟢".
Definition yellow_circle : string := "🟡".
Definition orange_circle : string := "🟠".

(** A reading of the sensor of a station. *)
Record Valore : Type := mkValore {
  t : Z;
  v : pyval
}.

(** [max(dati, key=lambda x: x.t)]: the first element whose [t] is not
    exceeded; [ValueError] on an empty list. *)
Fixpoint max_from (best : Valore) (dati : list Valore) : Valore :=
  match dati with
  | [] => best
  | x :: rest => max_from (if t best <? t x then x else best) rest
  end.

Definition max_by_t (dati : list Valore) : outcome Valore :=
  match dati with
  | [] => Raise ValueError
  | x :: rest => Ok (max_from x rest)
  end.

Section Builtins.

(** Library functions taken as given: [float(s)] and [int(s)] on a string,
    the rendering of an epoch in milliseconds as local time
    ([datetime.fromtimestamp(ms / 1000, tz=ZoneInfo("Europe/Rome"))
    .replace(tzinfo=None).strftime("%d-%m-%Y %H:%M")], which raises outside
    the supported years), [str] and [repr] as an f-string applies them,
    and [inspect.cleandoc]. *)
Variable float_of_str : string → outcome spec_float.
Variable int_of_str : string → outcome Z.
Variable strftime_rome : Z → outcome string.
Variable str_of : pyval → string.
Variable repr_float : spec_float → string.
Variable cleandoc : string → string.

(** [float(x)] *)
Definition py_float (x : pyval) : outcome spec_float :=
  match x with
  | PFloat f => Ok f
  | PInt z => float_of_int z
  | PBool b => Ok (if b then float_one else float_zero)
  | PStr s => float_of_str s
  | PNone | PList _ | PDict _ => Raise TypeError
  end.

(** [int(x)] *)
Definition py_int (x : pyval) : outcome Z :=
  match x with
  | PInt z => Ok z
  | PBool b => Ok (if b then 1 else 0)
  | PFloat f => int_of_float f
  | PStr s => int_of_str s
  | PNone | PList _ | PDict _ => Raise TypeError
  end.

(** The chain of [if]/[elif] of [create_station_message]. *)
Definition alarm_of (value : spec_float) (yellow orange red : pyval) : outcome string :=
  c1 ← py_le value yellow;
  if (c1 : bool) then Ok green_circle
  else
    c2 ← py_and (py_gt value yellow) (py_le value orange);
    if (c2 : bool) then Ok yellow_circle
    else
      c3 ← py_and (py_ge value orange) (py_le value red);
      if (c3 : bool) then Ok orange_circle
      else Ok red_circle.

(** The values that [Stazione.create_station_message] computes before it
    formats them. *)
Definition message_fields (self : Stazione) : outcome MessageFields :=
  timestamp ← strftime_rome (timestamp self);
  value ← py_float (value self);
  let yellow := soglia1 self in
  let orange := soglia2 self in
  let red := soglia3 self in
  alarm ← alarm_of value yellow orange red;
  if SFeqb value UNKNOWN_VALUE
  then Ok (mkFields (nomestaz self) (inr "non disponibile") "" yellow orange red timestamp)
  else Ok (mkFields (nomestaz self) (inl value) alarm yellow orange red timestamp).

Definition nl : string := String (Ascii.ascii_of_nat 10) "".

(** [{value!r}] *)
Definition repr_value (x : spec_float + string) : string :=
  match x with
  | inl f => repr_float f
  | inr s => ("'" ++ s ++ "'")%string
  end.

(** The f-string of [Stazione.create_station_message], with the
    indentation it has in the source. *)
Definition fstring (m : MessageFields) : string :=
  let indent := "                " in
  ("Stazione: " ++ str_of (f_nomestaz m) ++ nl
   ++ indent ++ "Valore: " ++ repr_value (f_value m) ++ " " ++ f_alarm m ++ nl
   ++ indent ++ "Soglia Gialla: " ++ str_of (f_yellow m) ++ nl
   ++ indent ++ "Soglia Arancione: " ++ str_of (f_orange m) ++ nl
   ++ indent ++ "Soglia Rossa: " ++ str_of (f_red m) ++ nl
   ++ indent ++ "Ultimo rilevamento: " ++ f_timestamp m)%string.

(** [Stazione.create_station_message] *)
Definition create_station_message (self : Stazione) : outcome string :=
  m ← message_fields self;
  Ok (cleandoc (fstring m)).

(** [Valore] called with the keyword arguments [kw]: [TypeError] unless
    [kw] is a mapping with exactly the keys [t] and [v]; then
    [__post_init__] converts [t] with [int]. *)
Definition Valore_kw (kw : pyval) : outcome Valore :=
  match kw with
  | PDict d =>
      match d !! "t", d !! "v" with
      | Some t0, Some v0 =>
          if Nat.eqb (size d) 2
          then t1 ← py_int t0; Ok (mkValore t1 v0)
          else Raise TypeError
      | _, _ => Raise TypeError
      end
  | _ => Raise TypeError
  end.

(** [fetch_latest_time]: the [time] of the first record of the answer to
    the query at the base time. *)
Definition base_time : Z := 1726667100000.

Definition getitem_0 (data : pyval) : outcome pyval :=
  match data with
  | PList [] => Raise IndexError
  | PList (x :: _) => Ok x
  | PDict _ => Raise KeyError
  | PStr EmptyString => Raise IndexError
  | PStr (String c _) => Ok (PStr (String c ""))
  | _ => Raise TypeError
  end.

Definition getitem_time (x : pyval) : outcome pyval :=
  match x with
  | PDict d => match d !! "time" with Some y => Ok y | None => Raise KeyError end
  | _ => Raise TypeError
  end.

Definition fetch_latest_time (client : Client) : list LogRecord * outcome Z :=
  let url := SensorValues base_time in
  let r :=
    response ← get client url;
    _ ← raise_for_status response;
    data ← json response;
    first ← getitem_0 data;
    time ← getitem_time first;
    py_int time in
  match r with
  | Raise (HTTPStatusError c) =>
      ([mkLog "Error fetching latest time: %s" [ArgStatus c]], r)
  | Raise KeyError | Raise IndexError =>
      ([mkLog "Error fetching latest time: KeyError or IndexError" []], r)
  | _ => ([], r)
  end.

(** The dict comprehension of [fetch_stations_data]: every [None] of the
    record becomes the sentinel. *)
Definition normalize (stazione : gmap string pyval) : gmap string pyval :=
  (λ x, match x with PNone => PFloat UNKNOWN_VALUE | _ => x end) <$> stazione.

(** The list comprehension of [fetch_stations_data]: the records that do
    not carry [time], each made a [Stazione]. *)
Fixpoint roster (time : Z) (data : list pyval) : outcome (list Stazione) :=
  match data with
  | [] => Ok []
  | stazione :: rest =>
      skip ← py_in "time" stazione;
      if (skip : bool) then roster time rest
      else
        d ← items stazione;
        s ← Stazione_kw time (normalize d);
        l ← roster time rest;
        Ok (s :: l)
  end.

(** [fetch_stations_data] *)
Definition fetch_stations_data (client : Client) (time : Z)
    : list LogRecord * outcome (list Stazione) :=
  let url := SensorValues time in
  let r :=
    response ← get client url;
    _ ← raise_for_status response;
    data ← json response;
    records ← py_iter data;
    roster time records in
  match r with
  | Raise (HTTPStatusError c) =>
      ([mkLog "Error fetching stations data: %s" [ArgStatus c]], r)
  | Raise KeyError | Raise IndexError =>
      ([mkLog "Error fetching stations data: KeyError or IndexError" []], r)
  | _ => ([], r)
  end.

(** [fetch_time_series] *)
Definition fetch_time_series (client : Client) (stazione : Stazione)
    : list LogRecord * outcome (list Valore) :=
  let url := TimeSeries (idstazione stazione) in
  let r :=
    response ← get client url;
    _ ← raise_for_status response;
    data ← json response;
    records ← py_iter data;
    mapM Valore_kw records in
  match r with
  | Raise (HTTPStatusError c) =>
      ([mkLog "Error fetching time series for stagiong %s %s: %s"
          [ArgVal (nomestaz stazione); ArgVal (idstazione stazione); ArgStatus c]], r)
  | Raise KeyError =>
      ([mkLog "Error fetching time series for station %s %s: KeyError"
          [ArgVal (nomestaz stazione); ArgVal (idstazione stazione)]], r)
  | _ => ([], r)
  end.

(** [asyncio.gather] with [return_exceptions=True] over one
    [fetch_time_series] per station: every task settles, and its result or
    its exception is kept at the position of its station.  The tasks only
    read the client and each writes its own log records; the records are
    listed here in the order of the stations. *)
Fixpoint gather (client : Client) (stations : list Stazione)
    : list LogRecord * list (outcome (list Valore)) :=
  match stations with
  | [] => ([], [])
  | stazione :: rest =>
      let '(log1, dati) := fetch_time_series client stazione in
      let '(log2, results) := gather client rest in
      (log1 ++ log2, dati :: results)
  end.

(** The [logger.error] call of [enrich_data]; its argument is the station
    as it is at that point, given here by its attributes. *)
Definition failed_record (stazione : Stazione) : LogRecord :=
  mkLog "Failed to fetch time series for station %s"
    [ArgStation stazione].

(** The loop of [enrich_data] over [zip(stations, results)].  The stations
    are objects that the loop updates in place: the result holds every
    station of the list as the loop leaves it, also when an exception ends
    the loop early. *)
Fixpoint enrich_loop (pairs : list (Stazione * outcome (list Valore)))
    : list Stazione * list LogRecord * outcome unit :=
  match pairs with
  | [] => ([], [], Ok tt)
  | (stazione, Raise _) :: rest =>
      let '(stations, log, r) := enrich_loop rest in
      (stazione :: stations, failed_record stazione :: log, r)
  | (stazione, Ok dati) :: rest =>
      match max_by_t dati with
      | Raise e => (stazione :: rest.*1, [], Raise e)
      | Ok max_value =>
          let stazione' := set_timestamp (set_value stazione (v max_value)) (t max_value) in
          let '(stations, log, r) := enrich_loop rest in
          (stazione' :: stations, log, r)
      end
  end.

(** [enrich_data] *)
Definition enrich_data (client : Client) (stations : list Stazione)
    : list Stazione * list LogRecord * outcome unit :=
  let '(log1, results) := gather client stations in
  let '(stations', log2, r) := enrich_loop (zip stations results) in
  (stations', log1 ++ log2, r).

End Builtins.

End apis.

(** ** app/erfiume/tgbot.py *)

Module tgbot.

Import apis.

Section Builtins.

Variable float_of_str : string → outcome spec_float.
Variable strftime_rome : Z → outcome string.
Variable str_of : pyval → string.
Variable repr_float : spec_float → string.
Variable cleandoc : string → string.

(** The values that [create_station_message] computes before it formats
    them: the message of the bot shows the value and the alarm of the
    chain of [if]/[elif] as they are. *)
Definition message_fields (station : Stazione) : outcome MessageFields :=
  timestamp ← strftime_rome (timestamp station);
  value ← py_float float_of_str (value station);
  let yellow := soglia1 station in
  let orange := soglia2 station in
  let red := soglia3 station in
  alarm ← alarm_of value yellow orange red;
  Ok (mkFields (nomestaz station) (inl value) alarm yellow orange red timestamp).

(** The f-string of [create_station_message], with the indentation it has
    in the source. *)
Definition fstring (m : MessageFields) : string :=
  let indent := "            " in
  ("Stazione: " ++ str_of (f_nomestaz m) ++ nl
   ++ indent ++ "Valore: " ++ repr_value repr_float (f_value m) ++ " " ++ f_alarm m ++ nl
   ++ indent ++ "Soglia Gialla: " ++ str_of (f_yellow m) ++ nl
   ++ indent ++ "Soglia Arancione: " ++ str_of (f_orange m) ++ nl
   ++ indent ++ "Soglia Rossa: " ++ str_of (f_red m) ++ nl
   ++ indent ++ "<b>Ultimo rilevamento: " ++ f_timestamp m ++ "</b>")%string.

(** [create_station_message], the function that [cesena] and
    [handle_private_message] call to answer a user. *)
Definition create_station_message (station : Stazione) : outcome string :=
  m ← message_fields station;
  Ok (cleandoc (fstring m)).

End Builtins.

End tgbot.

(** ** Sample data

    Concrete floats, stations and clients that the examples below
    evaluate the functions on. *)

Module sample.

Import apis.

Definition f0_0 : spec_float := Eval vm_compute in Prim2SF 0%float.
Definition f0_5 : spec_float := Eval vm_compute in Prim2SF 0.5%float.
Definition f1_0 : spec_float := Eval vm_compute in Prim2SF 1%float.
Definition f2_0 : spec_float := Eval vm_compute in Prim2SF 2%float.
Definition f3_0 : spec_float := Eval vm_compute in Prim2SF 3%float.

(** Stand-ins for the library functions.  No sample holds a string where a
    number is expected, so the conversions from strings are never reached;
    the rendering of the time is a fixed text. *)
Definition float_of_str : string → outcome spec_float := λ _, Raise ValueError.
Definition int_of_str : string → outcome Z := λ _, Raise ValueError.
Definition strftime_rome : Z → outcome string := λ _, Ok "18-09-2024 15:45".

(** A station with the thresholds 1.0, 2.0 and 3.0. *)
Definition station (id : string) (x : pyval) : Stazione :=
  mkStazione base_time (PStr id) (PInt 1) (PStr id) (PStr "12.24") (PStr "44.13")
    (PFloat f1_0) (PFloat f2_0) (PFloat f3_0) x.

(** The same thresholds out of order: yellow 2.0, orange 1.0, red 3.0. *)
Definition station_unordered (x : pyval) : Stazione :=
  mkStazione base_time (PStr "u") (PInt 1) (PStr "u") (PStr "12.24") (PStr "44.13")
    (PFloat f2_0) (PFloat f1_0) (PFloat f3_0) x.

(** A roster record, as the upstream service sends it. *)
Definition record (id : string) (x : pyval) : gmap string pyval :=
  list_to_map
    [("idstazione", PStr id); ("ordinamento", PInt 1); ("nomestaz", PStr id);
     ("lon", PStr "12.24"); ("lat", PStr "44.13");
     ("soglia1", PFloat f1_0); ("soglia2", PFloat f2_0); ("soglia3", PFloat f3_0);
     ("value", x)].

Definition time_record : gmap string pyval := {[ "time" := PInt base_time ]}.

Definition reading (time : Z) (x : spec_float) : pyval :=
  PDict (list_to_map [("t", PInt time); ("v", PFloat x)]).

(** A client that answers every request with the status [200] and the
    given JSON body. *)
Definition answering (data : pyval) : Client :=
  λ _, Some (mkResponse 200 (Some data)).

(** A client for the time series of the stations [A], [B] and [E]: two
    readings for [A], a server error for [B], an empty list for [E]; any
    other request fails. *)
Definition series_client : Client :=
  λ url,
    match url with
    | TimeSeries (PStr "A") =>
        Some (mkResponse 200 (Some (PList [reading 100 f1_0; reading 200 f2_0])))
    | TimeSeries (PStr "B") => Some (mkResponse 500 None)
    | TimeSeries (PStr "E") => Some (mkResponse 200 (Some (PList [])))
    | _ => None
    end.

(** A roster of three records: a station, the record that carries [time],
    and a station whose value is null. *)
Definition roster_records : list (gmap string pyval) :=
  [record "A" (PFloat f0_5); time_record; record "B" PNone].

(** A roster whose second station lacks [nomestaz]. *)
Definition malformed_records : list (gmap string pyval) :=
  [record "A" (PFloat f0_5); delete "nomestaz" (record "B" (PFloat f0_5))].

End sample.

(** ** The station key set of a roster record *)

Definition station_keys : gset string :=
  list_to_set
    ["idstazione"; "ordinamento"; "nomestaz"; "lon"; "lat";
     "soglia1"; "soglia2"; "soglia3"; "value"].

(** A record with exactly the attributes of a station. *)
Definition station_record (d : gmap string pyval) : Prop := dom d = station_keys.

(** A record that carries a [time] field. *)
Definition carries_time (d : gmap string pyval) : bool :=
  bool_decide (is_Some (d !! "time")).

(** A response to the roster query with a success status whose body is a
    list of objects. *)
Definition roster_response (client : Client) (time : Z)
    (records : list (gmap string pyval)) : Prop :=
  ∃ response, client (SensorValues time) = Some response ∧
    200 ≤ status_code response ≤ 299 ∧
    body response = Some (PList (PDict <$> records)).

(** A station whose value and thresholds are floats, and whose time of
    last reading is rendered as [ts]. *)
Definition float_station (strftime_rome : Z → outcome string)
    (self : apis.Stazione) (x yellow orange red : spec_float) (ts : string) : Prop :=
  apis.value self = PFloat x ∧ apis.soglia1 self = PFloat yellow ∧
  apis.soglia2 self = PFloat orange ∧ apis.soglia3 self = PFloat red ∧
  strftime_rome (apis.timestamp self) = Ok ts.

(** ** Predicates and measures for the further properties *)

(** Whether an outcome is an exception. *)
Definition raised {A : Type} (m : outcome A) : bool :=
  match m with Ok _ => false | Raise _ => true end.

(** The attributes of a station that enrichment has no business with. *)
Definition same_identity (s s' : apis.Stazione) : Prop :=
  apis.idstazione s' = apis.idstazione s ∧ apis.ordinamento s' = apis.ordinamento s ∧
  apis.nomestaz s' = apis.nomestaz s ∧ apis.lon s' = apis.lon s ∧
  apis.lat s' = apis.lat s ∧ apis.soglia1 s' = apis.soglia1 s ∧
  apis.soglia2 s' = apis.soglia2 s ∧ apis.soglia3 s' = apis.soglia3 s.

(** The severity of an alarm: green, yellow, orange, red. *)
Definition alarm_rank (alarm : string) : nat :=
  if String.eqb alarm apis.green_circle then 0
  else if String.eqb alarm apis.yellow_circle then 1
  else if String.eqb alarm apis.orange_circle then 2
  else 3.

(** A response to the time-series query of a station with a success
    status whose body is a list. *)
Definition series_response (client : Client) (s : apis.Stazione)
    (records : list pyval) : Prop :=
  ∃ response, client (TimeSeries (apis.idstazione s)) = Some response ∧
    200 ≤ status_code response ≤ 299 ∧
    body response = Some (PList records).

(** A response to the query for the latest time with a success status
    whose body is [data]. *)
Definition latest_time_response (client : Client) (data : pyval) : Prop :=
  ∃ response, client (SensorValues apis.base_time) = Some response ∧
    200 ≤ status_code response ≤ 299 ∧
    body response = Some data.

(** A response with a status outside 2xx. *)
Definition error_response (client : Client) (url : Url) (c : Z) : Prop :=
  ∃ response, client url = Some response ∧ status_code response = c ∧
    ¬ (200 ≤ c ≤ 299).

(** No attribute of the station is [None]. *)
Definition no_None (s : apis.Stazione) : Prop :=
  apis.idstazione s ≠ PNone ∧ apis.ordinamento s ≠ PNone ∧
  apis.nomestaz s ≠ PNone ∧ apis.lon s ≠ PNone ∧ apis.lat s ≠ PNone ∧
  apis.soglia1 s ≠ PNone ∧ apis.soglia2 s ≠ PNone ∧ apis.soglia3 s ≠ PNone ∧
  apis.value s ≠ PNone.

(** ** Further sample data *)

Module cases.

Import apis.

(** A time series whose second reading lacks [v]. *)
Definition broken_series : list pyval :=
  [sample.reading 100 sample.f1_0; PDict {[ "t" := PInt 200 ]}].

(** A roster record with one attribute too many. *)
Definition record_with_extra : gmap string pyval :=
  <["comune" := PStr "Cesena"]> (sample.record "B" (PFloat sample.f0_5)).

(** A roster record whose thresholds are all null. *)
Definition record_without_thresholds : gmap string pyval :=
  list_to_map
    [("idstazione", PStr "N"); ("ordinamento", PInt 1); ("nomestaz", PStr "N");
     ("lon", PStr "12.24"); ("lat", PStr "44.13");
     ("soglia1", PNone); ("soglia2", PNone); ("soglia3", PNone);
     ("value", PFloat sample.f0_5)].

(** A client that answers every request with the given status and no
    JSON body. *)
Definition failing (c : Z) : Client :=
  λ _, Some (mkResponse c None).

End cases.

(** What two successive comparisons say about the comparison of the ends,
    when they say anything. *)
Definition chain (c1 c2 : comparison) : option comparison :=
  match c1, c2 with
  | Eq, c | c, Eq => Some c
  | Lt, Lt => Some Lt
  | Gt, Gt => Some Gt
  | _, _ => None
  end.

(** A field of a roster record as a station holds it: the sentinel for a
    null, the field itself otherwise. *)
Definition denull (x : pyval) : pyval :=
  match x with
  | PNone => PFloat apis.UNKNOWN_VALUE
  | _ => x
  end.

(** The station [s] is the record [d] converted at the time [time]: its
    timestamp is [time]; its identifier, ordering, name, coordinates and
    thresholds are the fields of the record of the same name, with the
    sentinel for a null; its value is the field [value] when that tests
    true, and the sentinel otherwise. *)
Definition built_from (time : Z) (d : gmap string pyval) (s : apis.Stazione) : Prop :=
  apis.timestamp s = time ∧
  denull <$> d !! "idstazione" = Some (apis.idstazione s) ∧
  denull <$> d !! "ordinamento" = Some (apis.ordinamento s) ∧
  denull <$> d !! "nomestaz" = Some (apis.nomestaz s) ∧
  denull <$> d !! "lon" = Some (apis.lon s) ∧
  denull <$> d !! "lat" = Some (apis.lat s) ∧
  denull <$> d !! "soglia1" = Some (apis.soglia1 s) ∧
  denull <$> d !! "soglia2" = Some (apis.soglia2 s) ∧
  denull <$> d !! "soglia3" = Some (apis.soglia3 s) ∧
  (λ x, if truthy x then x else PFloat apis.UNKNOWN_VALUE) <$> d !! "value"
    = Some (apis.value s).

(** ** Tactics for the order on floats *)

(** [SFcompare] compares mantissas with [Pos.compare_cont Eq], which is
    [Pos.compare]. *)
Ltac fold_pos_compare :=
  change (PosDef.Pos.compare_cont Eq) with Pos.compare in *.

(** Case analysis on every comparison of exponents and mantissas. *)
Ltac order_cases :=
  repeat match goal with
  | H : context [Z.compare ?a ?b] |- _ => destruct (Z.compare_spec a b)
  | |- context [Z.compare ?a ?b] => destruct (Z.compare_spec a b)
  | H : context [Pos.compare ?a ?b] |- _ => destruct (Pos.compare_spec a b)
  | |- context [Pos.compare ?a ?b] => destruct (Pos.compare_spec a b)
  end;
  cbn [CompOpp] in *; subst; try congruence; try lia.

(** Case analysis on the class and sign of every float. *)
Ltac float_cases :=
  repeat match goal with
  | f : spec_float |- _ => destruct f
  | s : bool |- _ => destruct s
  end;
  simpl in *; fold_pos_compare; try congruence.

(** * Properties *)

(** ** Order on floats *)

Section FloatOrder.

Lemma SFcompare_antisym (a b : spec_float) (c : comparison) :
  SFcompare a b = Some c → SFcompare b a = Some (CompOpp c).
Proof.
  intros H. float_cases; try (inversion H; subst; reflexivity).
  all: inversion H; subst; clear H; f_equal; order_cases.
Qed.

Lemma SFcompare_Eq_l (a b c : spec_float) :
  SFcompare a b = Some Eq → SFcompare a c = SFcompare b c.
Proof.
  intros H. float_cases.
  all: inversion H as [H']; clear H; order_cases.
Qed.

Lemma SFcompare_Eq_r (a b c : spec_float) :
  SFcompare a b = Some Eq → SFcompare c a = SFcompare c b.
Proof.
  intros H. float_cases.
  all: inversion H as [H']; clear H; order_cases.
Qed.

Lemma SFcompare_Lt_trans (a b c : spec_float) :
  SFcompare a b = Some Lt → SFcompare b c = Some Lt → SFcompare a c = Some Lt.
Proof.
  intros H1 H2. float_cases.
  all: inversion H1 as [H1']; inversion H2 as [H2']; clear H1 H2; f_equal; order_cases.
Qed.

End FloatOrder.

Lemma SFltb_Lt (a b : spec_float) : SFltb a b = true ↔ SFcompare a b = Some Lt.
Proof.
  unfold SFltb. destruct (SFcompare a b) as [[]|]; split; congruence.
Qed.

Lemma SFeqb_Eq (a b : spec_float) : SFeqb a b = true ↔ SFcompare a b = Some Eq.
Proof.
  unfold SFeqb. destruct (SFcompare a b) as [[]|]; split; congruence.
Qed.

Lemma SFltb_trans (a b c : spec_float) :
  SFltb a b = true → SFltb b c = true → SFltb a c = true.
Proof. rewrite !SFltb_Lt. apply SFcompare_Lt_trans. Qed.

(** [a < b] excludes [b <= a]. *)
Lemma SFltb_not_leb (a b : spec_float) : SFltb a b = true → SFleb b a = false.
Proof.
  rewrite SFltb_Lt. intros H. apply SFcompare_antisym in H.
  unfold SFleb. rewrite H. reflexivity.
Qed.

Lemma SFltb_leb (a b : spec_float) : SFltb a b = true → SFleb a b = true.
Proof. rewrite SFltb_Lt. intros H. unfold SFleb. rewrite H. reflexivity. Qed.

Lemma SFeqb_leb (a b : spec_float) : SFeqb a b = true → SFleb a b = true.
Proof. rewrite SFeqb_Eq. intros H. unfold SFleb. rewrite H. reflexivity. Qed.

Lemma SFeqb_geb (a b : spec_float) : SFeqb a b = true → SFleb b a = true.
Proof.
  rewrite SFeqb_Eq. intros H. apply SFcompare_antisym in H.
  unfold SFleb. rewrite H. reflexivity.
Qed.

(** A float equal to [b] is above whatever [b] is above. *)
Lemma SFltb_eqb_r (a b c : spec_float) :
  SFeqb a b = true → SFltb c b = true → SFltb c a = true.
Proof.
  rewrite SFeqb_Eq, !SFltb_Lt. intros H1 H2.
  rewrite (SFcompare_Eq_r a b c H1). exact H2.
Qed.

(** The literal [-9999.0]. *)
Lemma UNKNOWN_VALUE_literal : apis.UNKNOWN_VALUE = Prim2SF (-9999)%float.
Proof. vm_compute. reflexivity. Qed.

Lemma UNKNOWN_VALUE_valid : valid_binary prec emax apis.UNKNOWN_VALUE = true.
Proof. vm_compute. reflexivity. Qed.

(** ** Comparison of a float with a float attribute *)

Lemma py_le_float (x y : spec_float) : py_le x (PFloat y) = Ok (SFleb x y).
Proof. reflexivity. Qed.

Lemma py_gt_float (x y : spec_float) : py_gt x (PFloat y) = Ok (SFgtb x y).
Proof.
  unfold py_gt, SFgtb, SFltb. simpl. f_equal.
  destruct (SFcompare x y) as [c|] eqn:Hxy.
  - rewrite (SFcompare_antisym _ _ _ Hxy). destruct c; reflexivity.
  - destruct (SFcompare y x) as [c|] eqn:Hyx; [|reflexivity].
    apply SFcompare_antisym in Hyx. congruence.
Qed.

Lemma py_ge_float (x y : spec_float) : py_ge x (PFloat y) = Ok (SFgeb x y).
Proof.
  unfold py_ge, SFgeb, SFleb. simpl. f_equal.
  destruct (SFcompare x y) as [c|] eqn:Hxy.
  - rewrite (SFcompare_antisym _ _ _ Hxy). destruct c; reflexivity.
  - destruct (SFcompare y x) as [c|] eqn:Hyx; [|reflexivity].
    apply SFcompare_antisym in Hyx. congruence.
Qed.

(** The chain of conditions on float thresholds. *)
Lemma alarm_of_floats (x yellow orange red : spec_float) :
  apis.alarm_of x (PFloat yellow) (PFloat orange) (PFloat red) =
  Ok (if SFleb x yellow then apis.green_circle
      else if SFgtb x yellow && SFleb x orange then apis.yellow_circle
      else if SFgeb x orange && SFleb x red then apis.orange_circle
      else apis.red_circle).
Proof.
  unfold apis.alarm_of, py_and.
  rewrite !py_le_float, py_gt_float, py_ge_float. simpl.
  destruct (SFleb x yellow); [reflexivity|].
  destruct (SFgtb x yellow); simpl.
  - destruct (SFleb x orange); [reflexivity|].
    destruct (SFgeb x orange); simpl; [|reflexivity].
    destruct (SFleb x red); reflexivity.
  - destruct (SFgeb x orange); simpl; [|reflexivity].
    destruct (SFleb x red); reflexivity.
Qed.

(** ** Classification *)

Section Classification.

Import apis.

Variable float_of_str : string → outcome spec_float.
Variable strftime_rome : Z → outcome string.

Lemma apis_message_fields_floats self x yellow orange red ts :
  float_station strftime_rome self x yellow orange red ts →
  apis.message_fields float_of_str strftime_rome self =
  Ok (if SFeqb x UNKNOWN_VALUE
      then mkFields (nomestaz self) (inr "non disponibile") ""
             (PFloat yellow) (PFloat orange) (PFloat red) ts
      else mkFields (nomestaz self) (inl x)
             (if SFleb x yellow then green_circle
              else if SFgtb x yellow && SFleb x orange then yellow_circle
              else if SFgeb x orange && SFleb x red then orange_circle
              else red_circle)
             (PFloat yellow) (PFloat orange) (PFloat red) ts).
Proof.
  intros (Hv & Hy & Ho & Hr & Hts).
  unfold apis.message_fields. rewrite Hts, Hv, Hy, Ho, Hr. simpl.
  rewrite alarm_of_floats. simpl.
  destruct (SFeqb x UNKNOWN_VALUE); reflexivity.
Qed.

Lemma tgbot_message_fields_floats self x yellow orange red ts :
  float_station strftime_rome self x yellow orange red ts →
  tgbot.message_fields float_of_str strftime_rome self =
  Ok (mkFields (nomestaz self) (inl x)
        (if SFleb x yellow then green_circle
         else if SFgtb x yellow && SFleb x orange then yellow_circle
         else if SFgeb x orange && SFleb x red then orange_circle
         else red_circle)
        (PFloat yellow) (PFloat orange) (PFloat red) ts).
Proof.
  intros (Hv & Hy & Ho & Hr & Hts).
  unfold tgbot.message_fields. rewrite Hts, Hv, Hy, Ho, Hr. simpl.
  rewrite alarm_of_floats. reflexivity.
Qed.

(** The method of [Stazione] shows the sentinel as not available, with no
    alarm, whatever the float thresholds are. *)
Lemma apis_unknown_not_available self yellow orange red ts :
  float_station strftime_rome self UNKNOWN_VALUE yellow orange red ts →
  ∃ m, apis.message_fields float_of_str strftime_rome self = Ok m ∧
       f_value m = inr "non disponibile" ∧ f_alarm m = "".
Proof.
  intros H. rewrite (apis_message_fields_floats _ _ _ _ _ _ H).
  eexists. split; [reflexivity|]. split; reflexivity.
Qed.

(** The function of the bot shows the sentinel as a number, and green
    whenever it is at most the yellow threshold. *)
Lemma tgbot_unknown_shown_green self yellow orange red ts :
  float_station strftime_rome self UNKNOWN_VALUE yellow orange red ts →
  SFleb UNKNOWN_VALUE yellow = true →
  ∃ m, tgbot.message_fields float_of_str strftime_rome self = Ok m ∧
       f_value m = inl UNKNOWN_VALUE ∧ f_alarm m = green_circle.
Proof.
  intros H Hle. rewrite (tgbot_message_fields_floats _ _ _ _ _ _ H), Hle.
  eexists. split; [reflexivity|]. split; reflexivity.
Qed.

(** C5, amended.  For a value other than the sentinel, the method of
    [Stazione] applies the rules in order, the first that matches giving
    the alarm: [x <= yellow] gives green; otherwise [yellow < x <= orange]
    gives yellow; otherwise [orange <= x <= red] gives orange; otherwise
    red.  A value equal to the yellow threshold is green.  When the
    thresholds ascend strictly, a value equal to the orange threshold is
    yellow, a value equal to the red threshold is orange, and a value above
    the red threshold is red. *)
Theorem classification_rules self x yellow orange red ts :
  float_station strftime_rome self x yellow orange red ts →
  SFeqb x UNKNOWN_VALUE = false →
  ∃ m, apis.message_fields float_of_str strftime_rome self = Ok m ∧
    f_value m = inl x ∧
    (SFleb x yellow = true → f_alarm m = green_circle) ∧
    (SFleb x yellow = false →
     SFltb yellow x && SFleb x orange = true → f_alarm m = yellow_circle) ∧
    (SFleb x yellow = false →
     SFltb yellow x && SFleb x orange = false →
     SFleb orange x && SFleb x red = true → f_alarm m = orange_circle) ∧
    (SFleb x yellow = false →
     SFltb yellow x && SFleb x orange = false →
     SFleb orange x && SFleb x red = false → f_alarm m = red_circle) ∧
    (SFeqb x yellow = true → f_alarm m = green_circle) ∧
    (SFltb yellow orange = true → SFltb orange red = true →
       (SFeqb x orange = true → f_alarm m = yellow_circle) ∧
       (SFeqb x red = true → f_alarm m = orange_circle) ∧
       (SFltb red x = true → f_alarm m = red_circle)).
Proof.
  intros H Hx. rewrite (apis_message_fields_floats _ _ _ _ _ _ H), Hx.
  eexists. split; [reflexivity|]. split; [reflexivity|]. simpl.
  unfold SFgtb, SFgeb.
  split; [intros ->; reflexivity|].
  split; [intros -> ->; reflexivity|].
  split; [intros -> -> ->; reflexivity|].
  split; [intros -> -> ->; reflexivity|].
  split; [intros E; rewrite (SFeqb_leb _ _ E); reflexivity|].
  intros Hyo Hor. pose proof (SFltb_trans _ _ _ Hyo Hor) as Hyr.
  split; [|split].
  - intros E. pose proof (SFltb_eqb_r _ _ _ E Hyo) as Hyx.
    rewrite (SFltb_not_leb _ _ Hyx), Hyx, (SFeqb_leb _ _ E). reflexivity.
  - intros E. pose proof (SFltb_eqb_r _ _ _ E Hyr) as Hyx.
    pose proof (SFltb_eqb_r _ _ _ E Hor) as Hox.
    rewrite (SFltb_not_leb _ _ Hyx), Hyx, (SFltb_not_leb _ _ Hox),
      (SFltb_leb _ _ Hox), (SFeqb_leb _ _ E). reflexivity.
  - intros Hrx. pose proof (SFltb_trans _ _ _ Hor Hrx) as Hox.
    pose proof (SFltb_trans _ _ _ Hyo Hox) as Hyx.
    rewrite (SFltb_not_leb _ _ Hyx), Hyx, (SFltb_not_leb _ _ Hox),
      (SFltb_leb _ _ Hox), (SFltb_not_leb _ _ Hrx). reflexivity.
Qed.

End Classification.

(** The rules of [classification_rules] at the value 2.0 with the
    thresholds 1.0, 2.0 and 3.0: a value equal to the orange threshold. *)
Lemma classification_rules_witness :
  ∃ m, apis.message_fields sample.float_of_str sample.strftime_rome
         (sample.station "A" (PFloat sample.f2_0)) = Ok m ∧
       apis.f_alarm m = apis.yellow_circle.
Proof.
  destruct (classification_rules sample.float_of_str sample.strftime_rome
              (sample.station "A" (PFloat sample.f2_0))
              sample.f2_0 sample.f1_0 sample.f2_0 sample.f3_0 "18-09-2024 15:45")
    as (m & Hm & _ & _ & _ & _ & _ & _ & Hasc).
  - repeat split; reflexivity.
  - reflexivity.
  - exists m. split; [exact Hm|].
    destruct (Hasc eq_refl eq_refl) as (Ho & _ & _). apply Ho. reflexivity.
Defined.

(** C5, as stated, fails twice.  The sentinel is at most the yellow
    threshold 1.0 and yet is not shown green: it gets no alarm.  With the
    thresholds yellow 2.0, orange 1.0 and red 3.0, the value 1.0 equals the
    orange threshold and yet is shown green, since the first rule matches
    it. *)
Lemma classification_rules_counterexample :
  (SFleb apis.UNKNOWN_VALUE sample.f1_0 = true ∧
   apis.message_fields sample.float_of_str sample.strftime_rome
     (sample.station "A" (PFloat apis.UNKNOWN_VALUE)) =
   Ok (apis.mkFields (PStr "A") (inr "non disponibile") ""
         (PFloat sample.f1_0) (PFloat sample.f2_0) (PFloat sample.f3_0)
         "18-09-2024 15:45") ∧
   "" ≠ apis.green_circle) ∧
  (SFeqb sample.f1_0 sample.f1_0 = true ∧
   apis.message_fields sample.float_of_str sample.strftime_rome
     (sample.station_unordered (PFloat sample.f1_0)) =
   Ok (apis.mkFields (PStr "u") (inl sample.f1_0) apis.green_circle
         (PFloat sample.f2_0) (PFloat sample.f1_0) (PFloat sample.f3_0)
         "18-09-2024 15:45") ∧
   apis.green_circle ≠ apis.yellow_circle).
Proof. repeat split; try reflexivity; discriminate. Qed.

(** ** Comprehensions *)

Section MapM.

Context {A B : Type} (f : A → outcome B).

Lemma mapM_Ok (l : list A) (ys : list B) :
  mapM f l = Ok ys ↔ Forall2 (λ x y, f x = Ok y) l ys.
Proof.
  revert ys. induction l as [|x l IH]; intros ys; simpl.
  - split.
    + intros [= <-]. constructor.
    + intros H. inversion H. reflexivity.
  - destruct (f x) as [y|e] eqn:Hx; simpl.
    + destruct (mapM f l) as [zs|e] eqn:Hl; simpl.
      * split.
        -- intros [= <-]. constructor; [exact Hx|]. apply IH. reflexivity.
        -- intros H. inversion H as [|? y' ? zs' Hy Hzs]; subst.
           apply IH in Hzs. congruence.
      * split; [discriminate|].
        intros H. inversion H as [|? y' ? zs' Hy Hzs]; subst.
        apply IH in Hzs. discriminate.
    + split; [discriminate|].
      intros H. inversion H; subst. congruence.
Qed.

(** When every element is accepted, so is the list. *)
Lemma mapM_total (l : list A) :
  Forall (λ x, ∃ y, f x = Ok y) l → ∃ ys, mapM f l = Ok ys.
Proof.
  induction 1 as [|x l [y Hy] _ [ys Hys]]; simpl.
  - eexists. reflexivity.
  - rewrite Hy. simpl. rewrite Hys. simpl. eexists. reflexivity.
Qed.

(** An exception of the comprehension is the exception of an element. *)
Lemma mapM_Raise (l : list A) (e : exn) :
  mapM f l = Raise e → ∃ x, x ∈ l ∧ f x = Raise e.
Proof.
  induction l as [|x l IH]; simpl; [discriminate|].
  destruct (f x) as [y|e'] eqn:Hx; simpl.
  - destruct (mapM f l) as [zs|e'] eqn:Hl; simpl; [discriminate|].
    intros [= ->]. destruct (IH eq_refl) as (x' & Hin & Hx').
    exists x'. split; [right; exact Hin | exact Hx'].
  - intros [= ->]. exists x. split; [left | exact Hx].
Qed.

(** An element that is rejected makes the comprehension raise. *)
Lemma mapM_rejected (l : list A) (x : A) (e : exn) :
  x ∈ l → f x = Raise e → ∃ e', mapM f l = Raise e'.
Proof.
  intros Hin Hx. destruct (mapM f l) as [ys|e'] eqn:Hl; [|eauto].
  apply mapM_Ok in Hl.
  apply list_elem_of_lookup in Hin as [i Hi].
  destruct (Forall2_lookup_l _ _ _ _ _ Hl Hi) as (y & _ & Hy). congruence.
Qed.

End MapM.

Lemma mapM_length {A B : Type} (f : A → outcome B) (l : list A) (ys : list B) :
  mapM f l = Ok ys → length ys = length l.
Proof. intros H. apply mapM_Ok in H. symmetry. eapply Forall2_length, H. Qed.

(** ** Construction of a station *)

Section Construction.

Import apis.

Lemma py_or_not_None (x : pyval) (y : spec_float) : py_or x (PFloat y) ≠ PNone.
Proof.
  unfold py_or. destruct (truthy x) eqn:Hx; [|discriminate].
  intros ->. discriminate.
Qed.

Lemma py_or_falsy (x y : pyval) : truthy x = false → py_or x y = y.
Proof. unfold py_or. intros ->. reflexivity. Qed.

Lemma py_or_truthy (x y : pyval) : truthy x = true → py_or x y = x.
Proof. unfold py_or. intros ->. reflexivity. Qed.

Lemma Stazione_init_value ts i o n lo la s1 s2 s3 x :
  value (Stazione_init ts i o n lo la s1 s2 s3 x) = py_or x (PFloat UNKNOWN_VALUE).
Proof. reflexivity. Qed.

(** What a successful call with keyword arguments was given. *)
Lemma Stazione_kw_Ok ts kw s :
  Stazione_kw ts kw = Ok s →
  ∃ i o n lo la s1 s2 s3 x,
    kw !! "idstazione" = Some i ∧ kw !! "ordinamento" = Some o ∧
    kw !! "nomestaz" = Some n ∧ kw !! "lon" = Some lo ∧ kw !! "lat" = Some la ∧
    kw !! "soglia1" = Some s1 ∧ kw !! "soglia2" = Some s2 ∧
    kw !! "soglia3" = Some s3 ∧ kw !! "value" = Some x ∧
    size kw = 9%nat ∧
    s = Stazione_init ts i o n lo la s1 s2 s3 x.
Proof.
  unfold Stazione_kw.
  destruct (kw !! "idstazione") as [i|]; [|discriminate].
  destruct (kw !! "ordinamento") as [o|]; [|discriminate].
  destruct (kw !! "nomestaz") as [n|]; [|discriminate].
  destruct (kw !! "lon") as [lo|]; [|discriminate].
  destruct (kw !! "lat") as [la|]; [|discriminate].
  destruct (kw !! "soglia1") as [s1|]; [|discriminate].
  destruct (kw !! "soglia2") as [s2|]; [|discriminate].
  destruct (kw !! "soglia3") as [s3|]; [|discriminate].
  destruct (kw !! "value") as [x|]; [|discriminate].
  destruct (Nat.eqb (size kw) 9) eqn:Hsz; [|discriminate].
  intros [= <-]. apply Nat.eqb_eq in Hsz.
  exists i, o, n, lo, la, s1, s2, s3, x. repeat split; assumption || reflexivity.
Qed.

(** The call raises nothing but [TypeError]. *)
Lemma Stazione_kw_Raise ts kw e : Stazione_kw ts kw = Raise e → e = TypeError.
Proof.
  unfold Stazione_kw.
  repeat match goal with
  | |- context [match ?m !! ?k with _ => _ end] => destruct (m !! k)
  end;
  try destruct (Nat.eqb _ _); congruence.
Qed.

(** A missing attribute makes the call raise. *)
Lemma Stazione_kw_missing ts kw k :
  k ∈ station_keys → kw !! k = None → Stazione_kw ts kw = Raise TypeError.
Proof.
  intros Hk Hnone. unfold station_keys in Hk.
  destruct (Stazione_kw ts kw) as [s|e] eqn:Hs.
  - apply Stazione_kw_Ok in Hs
      as (i & o & n & lo & la & s1 & s2 & s3 & x &
          Hi & Ho & Hn & Hlo & Hla & H1 & H2 & H3 & Hx & _).
    set_unfold in Hk.
    repeat (destruct Hk as [-> | Hk]; [congruence|]).
    destruct Hk.
  - f_equal. eapply Stazione_kw_Raise, Hs.
Qed.

Lemma size_station_keys : size station_keys = 9%nat.
Proof. vm_compute. reflexivity. Qed.

(** A record with exactly the attributes of a station is accepted. *)
Lemma Stazione_kw_station_record ts kw :
  station_record kw → ∃ s, Stazione_kw ts kw = Ok s.
Proof.
  unfold station_record. intros Hdom.
  assert (Hin : ∀ k, k ∈ station_keys → is_Some (kw !! k)).
  { intros k Hk. apply elem_of_dom. rewrite Hdom. exact Hk. }
  assert (Hsz : size kw = 9%nat).
  { rewrite <- (size_dom (D:=gset string)), Hdom. apply size_station_keys. }
  unfold Stazione_kw.
  destruct (Hin "idstazione") as [? ->]; [set_solver|].
  destruct (Hin "ordinamento") as [? ->]; [set_solver|].
  destruct (Hin "nomestaz") as [? ->]; [set_solver|].
  destruct (Hin "lon") as [? ->]; [set_solver|].
  destruct (Hin "lat") as [? ->]; [set_solver|].
  destruct (Hin "soglia1") as [? ->]; [set_solver|].
  destruct (Hin "soglia2") as [? ->]; [set_solver|].
  destruct (Hin "soglia3") as [? ->]; [set_solver|].
  destruct (Hin "value") as [? ->]; [set_solver|].
  rewrite Hsz. simpl. eexists. reflexivity.
Qed.

Lemma normalize_lookup (d : gmap string pyval) (k : string) :
  normalize d !! k =
  (λ x, match x with PNone => PFloat UNKNOWN_VALUE | _ => x end) <$> d !! k.
Proof. unfold normalize. apply lookup_fmap. Qed.

Lemma normalize_station_record (d : gmap string pyval) :
  station_record d → station_record (normalize d).
Proof. unfold station_record, normalize. rewrite dom_fmap_L. auto. Qed.

Lemma py_or_denull (x : pyval) :
  py_or (denull x) (PFloat UNKNOWN_VALUE) =
  if truthy x then x else PFloat UNKNOWN_VALUE.
Proof. unfold py_or. destruct x; reflexivity. Qed.

(** The station that the constructor returns for a normalized record
    holds the fields of the record. *)
Lemma Stazione_kw_built_from time (d : gmap string pyval) (s : Stazione) :
  Stazione_kw time (normalize d) = Ok s → built_from time d s.
Proof.
  intros Hs.
  apply Stazione_kw_Ok in Hs
    as (i & o & n & lo & la & s1 & s2 & s3 & x &
        Hi & Ho & Hn & Hlo & Hla & H1 & H2 & H3 & Hx & _ & ->).
  rewrite normalize_lookup in Hi, Ho, Hn, Hlo, Hla, H1, H2, H3, Hx.
  unfold built_from.
  cbn [timestamp idstazione ordinamento nomestaz lon lat soglia1 soglia2 soglia3 value
       Stazione_init Stazione_post_init set_value].
  repeat split; try assumption.
  destruct (d !! "value") as [y|]; [|discriminate].
  simpl in Hx. injection Hx as <-. simpl. f_equal. symmetry. apply py_or_denull.
Qed.

End Construction.

(** ** The roster *)

Section Roster.

Import apis.

(** On a list of JSON objects, the comprehension builds a station from
    each record that does not carry [time], in order. *)
Lemma roster_dicts time (records : list (gmap string pyval)) :
  roster time (PDict <$> records) =
  mapM (λ d, Stazione_kw time (normalize d))
    (filter (λ d, carries_time d = false) records).
Proof.
  induction records as [|d records IH]; [reflexivity|].
  rewrite fmap_cons. cbn [roster py_in mbind outcome_bind].
  fold (carries_time d). destruct (carries_time d) eqn:Hd.
  - rewrite filter_cons_False by congruence. exact IH.
  - rewrite filter_cons_True by assumption.
    cbn [items mbind outcome_bind mapM]. rewrite IH. reflexivity.
Qed.

(** The exceptions of the comprehension: never one that the handlers of
    [fetch_stations_data] catch. *)
Lemma roster_Raise time data e :
  roster time data = Raise e → e = TypeError ∨ e = AttributeError.
Proof.
  induction data as [|x data IH]; simpl; [discriminate|].
  destruct (py_in "time" x) as [[]|e1] eqn:Hin; simpl.
  - exact IH.
  - destruct (items x) as [d|e2] eqn:Hit; simpl.
    + destruct (Stazione_kw time (normalize d)) as [s|e3] eqn:Hs; simpl.
      * destruct (roster time data) as [l|e4]; simpl; [discriminate|].
        intros [= ->]. apply IH. reflexivity.
      * intros [= ->]. left. eapply Stazione_kw_Raise, Hs.
    + intros [= ->]. right. destruct x; simpl in Hit; congruence.
  - intros [= ->]. left. destruct x; simpl in Hin; congruence.
Qed.

Lemma fetch_stations_data_records client time records :
  roster_response client time records →
  fetch_stations_data client time =
  ([], mapM (λ d, Stazione_kw time (normalize d))
         (filter (λ d, carries_time d = false) records)).
Proof.
  intros (response & Hget & [Hlo Hhi] & Hbody).
  unfold fetch_stations_data, get. rewrite Hget. cbn [mbind outcome_bind].
  unfold raise_for_status.
  destruct (Z.leb_spec 200 (status_code response)); [|lia].
  destruct (Z.leb_spec (status_code response) 299); [|lia].
  cbn [andb mbind outcome_bind]. unfold json. rewrite Hbody.
  cbn [mbind outcome_bind py_iter]. rewrite roster_dicts.
  destruct (mapM _ _) as [l|e] eqn:Hm; [reflexivity|].
  apply mapM_Raise in Hm as (d & _ & Hd).
  apply Stazione_kw_Raise in Hd as ->. reflexivity.
Qed.

(** [fetch_stations_data] writes a log record only for a status error. *)
Lemma fetch_stations_data_log client time log r :
  fetch_stations_data client time = (log, r) →
  log = [] ∨
  ∃ c, r = Raise (HTTPStatusError c) ∧
       log = [mkLog "Error fetching stations data: %s" [ArgStatus c]].
Proof.
  unfold fetch_stations_data.
  destruct (get client (SensorValues time)) as [response|e] eqn:Hget;
    cbn [mbind outcome_bind].
  2:{ unfold get in Hget. destruct (client _); inversion Hget; subst.
      intros [= <- <-]. left. reflexivity. }
  destruct (raise_for_status response) as [[]|e] eqn:Hst; cbn [mbind outcome_bind].
  2:{ unfold raise_for_status in Hst. destruct (_ && _); inversion Hst; subst.
      intros [= <- <-]. right. eexists. split; reflexivity. }
  destruct (json response) as [data|e] eqn:Hjs; cbn [mbind outcome_bind].
  2:{ unfold json in Hjs. destruct (body _); inversion Hjs; subst.
      intros [= <- <-]. left. reflexivity. }
  destruct (py_iter data) as [records|e] eqn:Hit; cbn [mbind outcome_bind].
  2:{ destruct data; simpl in Hit; inversion Hit; subst;
      intros [= <- <-]; left; reflexivity. }
  destruct (roster time records) as [l|e] eqn:Hr.
  - intros [= <- <-]. left. reflexivity.
  - destruct (roster_Raise _ _ _ Hr) as [-> | ->]; intros [= <- <-]; left; reflexivity.
Qed.

Lemma filter_carries_time_length (records : list (gmap string pyval)) :
  (length (filter (λ d, carries_time d = false) records)
   + length (filter (λ d, carries_time d = true) records))%nat = length records.
Proof.
  induction records as [|d records IH]; [reflexivity|].
  destruct (carries_time d) eqn:Hd.
  - rewrite (filter_cons_False (λ d, carries_time d = false)) by congruence.
    rewrite (filter_cons_True (λ d, carries_time d = true)) by assumption.
    simpl. lia.
  - rewrite (filter_cons_True (λ d, carries_time d = false)) by assumption.
    rewrite (filter_cons_False (λ d, carries_time d = true)) by congruence.
    simpl. lia.
Qed.

(** C7.  When the roster response holds N records, exactly one of which
    carries [time], the others being station records,
    [fetch_stations_data] returns N - 1 stations: one for each record
    without [time], in order.  Each is that record converted: its
    timestamp is the given time, and its identifier, ordering, name,
    coordinates, thresholds and value are the fields of the record, with
    the sentinel for a null and for a value that tests false. *)
Theorem roster_excludes_time_record client time records :
  roster_response client time records →
  length (filter (λ d, carries_time d = true) records) = 1%nat →
  Forall (λ d, carries_time d = false → station_record d) records →
  ∃ stations,
    fetch_stations_data client time = ([], Ok stations) ∧
    length stations = (length records - 1)%nat ∧
    Forall2 (λ d s, Stazione_kw time (normalize d) = Ok s ∧ timestamp s = time ∧
                    built_from time d s)
      (filter (λ d, carries_time d = false) records) stations.
Proof.
  intros Hresp Hone Hrec.
  rewrite (fetch_stations_data_records _ _ _ Hresp).
  destruct (mapM_total (λ d, Stazione_kw time (normalize d))
              (filter (λ d, carries_time d = false) records)) as [stations Hst].
  { apply Forall_forall. intros d Hd.
    apply list_elem_of_filter in Hd as [Hnt Hd].
    apply Stazione_kw_station_record, normalize_station_record.
    rewrite Forall_forall in Hrec. apply Hrec; assumption. }
  exists stations. rewrite Hst. split; [reflexivity|]. split.
  - rewrite (mapM_length _ _ _ Hst).
    pose proof (filter_carries_time_length records). lia.
  - apply mapM_Ok in Hst. eapply Forall2_impl; [exact Hst|].
    intros d s Hs. split; [exact Hs|].
    pose proof (Stazione_kw_built_from _ _ _ Hs) as Hb.
    split; [exact (proj1 Hb) | exact Hb].
Qed.

End Roster.

Section RosterValues.

Import apis.

Lemma Stazione_kw_normalize_value time d x :
  station_record d → d !! "value" = Some x →
  ∃ s, Stazione_kw time (normalize d) = Ok s ∧
       value s = py_or (match x with PNone => PFloat UNKNOWN_VALUE | _ => x end)
                   (PFloat UNKNOWN_VALUE).
Proof.
  intros Hrec Hx.
  destruct (Stazione_kw_station_record time _ (normalize_station_record _ Hrec))
    as [s Hs].
  exists s. split; [exact Hs|].
  apply Stazione_kw_Ok in Hs
    as (i & o & n & lo & la & s1 & s2 & s3 & y & _ & _ & _ & _ & _ & _ & _ & _ & Hy & _ & ->).
  rewrite normalize_lookup, Hx in Hy. simpl in Hy. injection Hy as <-.
  reflexivity.
Qed.


Lemma fetch_stations_data_Ok client time log stations :
  fetch_stations_data client time = (log, Ok stations) →
  ∃ data, roster time data = Ok stations.
Proof.
  unfold fetch_stations_data.
  destruct (get client (SensorValues time)) as [response|e];
    cbn [mbind outcome_bind]; [|destruct e; discriminate].
  destruct (raise_for_status response) as [[]|e];
    cbn [mbind outcome_bind]; [|destruct e; discriminate].
  destruct (json response) as [data|e];
    cbn [mbind outcome_bind]; [|destruct e; discriminate].
  destruct (py_iter data) as [records|e];
    cbn [mbind outcome_bind]; [|destruct e; discriminate].
  destruct (roster time records) as [l|e] eqn:Hr; [|destruct e; discriminate].
  intros [= _ <-]. exists records. exact Hr.
Qed.


(** C10.  A station constructed with the value 0.0 has the sentinel as its
    value, and so has one constructed with any value that tests false; 0.0
    tests false and is not [None].  A roster record whose value is 0.0
    gives a station whose value is the sentinel. *)
Theorem zero_value_becomes_unknown ts i o n lo la s1 s2 s3 :
  value (Stazione_init ts i o n lo la s1 s2 s3 (PFloat (S754_zero false)))
    = PFloat UNKNOWN_VALUE ∧
  (∀ x, truthy x = false →
     value (Stazione_init ts i o n lo la s1 s2 s3 x) = PFloat UNKNOWN_VALUE) ∧
  truthy (PFloat (S754_zero false)) = false ∧
  PFloat (S754_zero false) ≠ PNone ∧
  (∀ d, station_record d → d !! "value" = Some (PFloat (S754_zero false)) →
     ∃ s, Stazione_kw ts (normalize d) = Ok s ∧ value s = PFloat UNKNOWN_VALUE).
Proof.
  split; [reflexivity|]. split.
  { intros x Hx. rewrite Stazione_init_value. apply py_or_falsy, Hx. }
  split; [reflexivity|]. split; [discriminate|].
  intros d Hrec Hzero.
  destruct (Stazione_kw_normalize_value ts d _ Hrec Hzero) as (s & Hs & Hv).
  exists s. split; [exact Hs|]. rewrite Hv. reflexivity.
Qed.

End RosterValues.

(** ** Examples on the sample roster *)

Lemma sample_record_station_record id x : station_record (sample.record id x).
Proof.
  unfold station_record, sample.record, station_keys.
  rewrite dom_list_to_map_L. reflexivity.
Qed.

Lemma sample_roster_response :
  roster_response (sample.answering (PList (PDict <$> sample.roster_records)))
    apis.base_time sample.roster_records.
Proof.
  eexists. split; [reflexivity|]. split; [simpl; lia | reflexivity].
Qed.

Lemma sample_roster_without_time :
  filter (λ d, carries_time d = false) sample.roster_records
  = [sample.record "A" (PFloat sample.f0_5); sample.record "B" PNone].
Proof. reflexivity. Qed.

(** The sample roster: three records, one of which carries [time], give
    two stations, the first with the fields of the record of [A], the
    second with those of the record of [B] and the sentinel for its null
    value. *)
Lemma roster_excludes_time_record_witness :
  ∃ sA sB,
    apis.fetch_stations_data
      (sample.answering (PList (PDict <$> sample.roster_records))) apis.base_time
    = ([], Ok [sA; sB]) ∧
    built_from apis.base_time (sample.record "A" (PFloat sample.f0_5)) sA ∧
    built_from apis.base_time (sample.record "B" PNone) sB ∧
    apis.nomestaz sA = PStr "A" ∧ apis.value sA = PFloat sample.f0_5 ∧
    apis.nomestaz sB = PStr "B" ∧ apis.value sB = PFloat apis.UNKNOWN_VALUE.
Proof.
  destruct (roster_excludes_time_record
              (sample.answering (PList (PDict <$> sample.roster_records)))
              apis.base_time sample.roster_records)
    as (stations & Hfetch & Hlen & Hall).
  - exact sample_roster_response.
  - reflexivity.
  - repeat constructor; try (intros _; apply sample_record_station_record).
    intros H. vm_compute in H. discriminate H.
  - rewrite sample_roster_without_time in Hall.
    inversion Hall as [|dA sA lA stations' (_ & _ & HA) Hall']; subst.
    inversion Hall' as [|dB sB lB stations'' (_ & _ & HB) Hall'']; subst.
    inversion Hall''; subst.
    exists sA, sB. split; [exact Hfetch|]. split; [exact HA|]. split; [exact HB|].
    destruct HA as (_ & _ & _ & HnA & _ & _ & _ & _ & _ & HvA).
    destruct HB as (_ & _ & _ & HnB & _ & _ & _ & _ & _ & HvB).
    vm_compute in HnA, HvA, HnB, HvB.
    injection HnA as HnA. injection HvA as HvA.
    injection HnB as HnB. injection HvB as HvB.
    split; [symmetry; exact HnA|]. split; [symmetry; exact HvA|].
    split; [symmetry; exact HnB | symmetry; exact HvB].
Defined.


(** ** A roster record that lacks an attribute *)

(** When a record without [time] lacks an attribute of a station, the
    roster fetch raises [TypeError] and writes no log record: the
    exception is none of those that [fetch_stations_data] catches. *)
Lemma fetch_stations_data_missing_field client time records d k :
  roster_response client time records →
  d ∈ records → carries_time d = false →
  k ∈ station_keys → d !! k = None →
  apis.fetch_stations_data client time = ([], Raise TypeError).
Proof.
  intros Hresp Hd Hnt Hk Hnone.
  rewrite (fetch_stations_data_records _ _ _ Hresp). f_equal.
  assert (Hraise : apis.Stazione_kw time (apis.normalize d) = Raise TypeError).
  { apply (Stazione_kw_missing _ _ k Hk).
    rewrite normalize_lookup, Hnone. reflexivity. }
  destruct (mapM_rejected (λ d, apis.Stazione_kw time (apis.normalize d))
              (filter (λ d, carries_time d = false) records) d TypeError)
    as [e He]; [apply list_elem_of_filter; auto | exact Hraise |].
  rewrite He. f_equal.
  apply mapM_Raise in He as (d' & _ & Hd').
  eapply Stazione_kw_Raise, Hd'.
Qed.

(** C4, on the code.  For the roster whose second record lacks
    [nomestaz], [fetch_stations_data] raises [TypeError], which none of
    its handlers catches, and writes no log record. *)
Theorem roster_missing_nomestaz :
  apis.fetch_stations_data
    (sample.answering (PList (PDict <$> sample.malformed_records))) apis.base_time
  = ([], Raise TypeError).
Proof. vm_compute. reflexivity. Qed.

(** The handler for [KeyError] and [IndexError] of the sibling
    [fetch_latest_time] is reached: a first record without [time] is
    logged and re-raised. *)
Lemma fetch_latest_time_missing_time :
  apis.fetch_latest_time sample.int_of_str
    (sample.answering (PList [PDict (sample.record "A" PNone)]))
  = ([apis.mkLog "Error fetching latest time: KeyError or IndexError" []],
     Raise KeyError).
Proof. vm_compute. reflexivity. Qed.

(** ** The sentinel in the message of the bot *)

(** C2, on the code.  For the station with the thresholds 1.0, 2.0 and
    3.0 whose value is the sentinel, the function of the bot shows the
    number -9999.0 and the green alarm, where the method of [Stazione]
    shows the value as not available, with no alarm. *)
Theorem tgbot_shows_sentinel_green :
  tgbot.message_fields sample.float_of_str sample.strftime_rome
    (sample.station "A" (PFloat apis.UNKNOWN_VALUE))
  = Ok (apis.mkFields (PStr "A") (inl apis.UNKNOWN_VALUE) apis.green_circle
          (PFloat sample.f1_0) (PFloat sample.f2_0) (PFloat sample.f3_0)
          "18-09-2024 15:45") ∧
  apis.message_fields sample.float_of_str sample.strftime_rome
    (sample.station "A" (PFloat apis.UNKNOWN_VALUE))
  = Ok (apis.mkFields (PStr "A") (inr "non disponibile") ""
          (PFloat sample.f1_0) (PFloat sample.f2_0) (PFloat sample.f3_0)
          "18-09-2024 15:45").
Proof. split; vm_compute; reflexivity. Qed.

(** ** Enrichment *)

Section Enrichment.

Import apis.

Variable int_of_str : string → outcome Z.
Variable client : Client.

Local Abbreviation fetch := (fetch_time_series int_of_str client).

(** The station as the loop leaves it when [max_value] is the selected
    reading: value and timestamp both from that reading. *)
Local Abbreviation updated s r := (set_timestamp (set_value s (v r)) (t r)).

Lemma max_from_spec (best : Valore) (dati : list Valore) :
  (max_from best dati = best ∨ max_from best dati ∈ dati) ∧
  t best ≤ t (max_from best dati) ∧
  ∀ x, x ∈ dati → t x ≤ t (max_from best dati).
Proof.
  revert best. induction dati as [|y dati IH]; intros best; simpl.
  - split; [left; reflexivity|]. split; [lia|]. intros x Hx. inversion Hx.
  - destruct (IH (if t best <? t y then y else best)) as (Hin & Hle & Hall).
    destruct (Z.ltb_spec (t best) (t y)) as [Hlt|Hge].
    + split; [right; destruct Hin as [->|Hin]; [left | right; exact Hin]|].
      split; [lia|].
      intros x Hx. apply elem_of_cons in Hx as [->|Hx]; [exact Hle | apply Hall, Hx].
    + split; [destruct Hin as [->|Hin]; [left; reflexivity | right; right; exact Hin]|].
      split; [exact Hle|].
      intros x Hx. apply elem_of_cons in Hx as [->|Hx]; [lia | apply Hall, Hx].
Qed.

(** The selected reading is one of the list, and no reading of the list
    is later. *)
Lemma max_by_t_Ok (dati : list Valore) (r : Valore) :
  max_by_t dati = Ok r → r ∈ dati ∧ ∀ x, x ∈ dati → t x ≤ t r.
Proof.
  destruct dati as [|y dati]; simpl; [discriminate|]. intros [= <-].
  destruct (max_from_spec y dati) as (Hin & Hle & Hall). split.
  - destruct Hin as [->|Hin]; [left | right; exact Hin].
  - intros x Hx. apply elem_of_cons in Hx as [->|Hx]; [exact Hle | apply Hall, Hx].
Qed.

Lemma max_by_t_nonempty (dati : list Valore) :
  dati ≠ [] → ∃ r, max_by_t dati = Ok r.
Proof. destruct dati; [congruence|]. intros _. eexists. reflexivity. Qed.

Lemma max_by_t_Raise (dati : list Valore) (e : exn) :
  max_by_t dati = Raise e → dati = [] ∧ e = ValueError.
Proof. destruct dati; simpl; [intros [= <-]; auto | discriminate]. Qed.

(** A fetch that succeeds writes no log record. *)
Lemma fetch_time_series_Ok_log (s : Stazione) (dati : list Valore) :
  (fetch s).2 = Ok dati → (fetch s).1 = [].
Proof.
  unfold fetch_time_series.
  destruct (_ ≫= _) as [l|e]; [reflexivity|].
  destruct e; simpl; discriminate.
Qed.

(** The results of the tasks, each next to its station. *)
Lemma gather_zip (stations : list Stazione) :
  zip stations (gather int_of_str client stations).2 =
  (λ s, (s, (fetch s).2)) <$> stations.
Proof.
  induction stations as [|s stations IH]; [reflexivity|]. simpl.
  destruct (fetch s) as [log1 dati].
  destruct (gather int_of_str client stations) as [log2 results].
  simpl in *. rewrite IH. reflexivity.
Qed.

Lemma enrich_data_loop (stations : list Stazione) :
  enrich_data int_of_str client stations =
  let '(stations', log2, r) := enrich_loop ((λ s, (s, (fetch s).2)) <$> stations) in
  (stations', (gather int_of_str client stations).1 ++ log2, r).
Proof.
  unfold enrich_data. rewrite <- gather_zip.
  destruct (gather int_of_str client stations) as [log1 results]. reflexivity.
Qed.

(** In every run, complete or not, the loop leaves each station either as
    it was or with its value and its timestamp both taken from one
    reading of its own series, a latest one. *)
Lemma enrich_loop_matched_pair (pairs : list (Stazione * outcome (list Valore))) :
  Forall2
    (λ p s', s' = p.1 ∨
       ∃ dati r, p.2 = Ok dati ∧ r ∈ dati ∧ (∀ x, x ∈ dati → t x ≤ t r) ∧
                 s' = updated p.1 r)
    pairs (enrich_loop pairs).1.1.
Proof.
  induction pairs as [|[s [dati|e]] pairs IH]; simpl.
  - constructor.
  - destruct (max_by_t dati) as [r|e] eqn:Hmax.
    + destruct (enrich_loop pairs) as [[st log] res]. simpl in *.
      constructor; [|exact IH]. right. exists dati, r.
      destruct (max_by_t_Ok _ _ Hmax). auto.
    + simpl. constructor; [left; reflexivity|].
      apply Forall2_fmap_r, Forall_Forall2_diag, Forall_forall.
      intros p _. left. reflexivity.
  - destruct (enrich_loop pairs) as [[st log] res]. simpl in *.
    constructor; [left; reflexivity | exact IH].
Qed.

(** When no series is empty, the loop completes: a station whose fetch
    failed is left as it was and logged, a station whose fetch succeeded
    has value and timestamp of a latest reading of its series. *)
Lemma enrich_loop_complete (pairs : list (Stazione * outcome (list Valore))) :
  Forall (λ p, p.2 ≠ Ok []) pairs →
  (enrich_loop pairs).2 = Ok tt ∧
  Forall2
    (λ p s',
       match p.2 with
       | Raise _ => s' = p.1
       | Ok dati => ∃ r, r ∈ dati ∧ (∀ x, x ∈ dati → t x ≤ t r) ∧ s' = updated p.1 r
       end)
    pairs (enrich_loop pairs).1.1.
Proof.
  induction 1 as [|[s [dati|e]] pairs Hne _ [IHr IHs]]; simpl.
  - split; [reflexivity | constructor].
  - destruct (max_by_t_nonempty dati) as [r Hmax]; [simpl in Hne; congruence|].
    rewrite Hmax. destruct (enrich_loop pairs) as [[st log] res]. simpl in *.
    split; [exact IHr|]. constructor; [|exact IHs].
    exists r. destruct (max_by_t_Ok _ _ Hmax). auto.
  - destruct (enrich_loop pairs) as [[st log] res]. simpl in *.
    split; [exact IHr|]. constructor; [reflexivity | exact IHs].
Qed.

(** An empty series makes the loop raise [ValueError]. *)
Lemma enrich_loop_empty (pairs : list (Stazione * outcome (list Valore))) :
  Exists (λ p, p.2 = Ok []) pairs → (enrich_loop pairs).2 = Raise ValueError.
Proof.
  induction pairs as [|[s [dati|e]] pairs IH]; intros Hex.
  - inversion Hex.
  - simpl. destruct dati as [|y dati]; [reflexivity|]. simpl.
    destruct (enrich_loop pairs) as [[st log] res]. simpl in *.
    apply IH. inversion Hex as [? ? Hp|]; [simpl in Hp; discriminate | assumption].
  - simpl. destruct (enrich_loop pairs) as [[st log] res]. simpl in *.
    apply IH. inversion Hex as [? ? Hp|]; [simpl in Hp; discriminate | assumption].
Qed.

(** A station whose series is empty makes [enrich_data] raise
    [ValueError], wherever it stands in the list. *)
Lemma enrich_data_empty_series (stations : list Stazione) (s : Stazione) :
  s ∈ stations → (fetch s).2 = Ok [] →
  (enrich_data int_of_str client stations).2 = Raise ValueError.
Proof.
  intros Hin Hs. rewrite enrich_data_loop.
  pose proof (enrich_loop_empty ((λ s, (s, (fetch s).2)) <$> stations)) as H.
  destruct (enrich_loop _) as [[st log] res]. simpl in *. apply H.
  apply Exists_fmap, Exists_exists. exists s. split; [exact Hin | exact Hs].
Qed.

(** When no series is empty, [enrich_data] completes and every station
    whose fetch succeeded ends with the value and the timestamp of one
    reading of its series, a latest one. *)
Lemma enrich_data_updates (stations : list Stazione) :
  Forall (λ s, (fetch s).2 ≠ Ok []) stations →
  (enrich_data int_of_str client stations).2 = Ok tt ∧
  Forall2
    (λ s s',
       match (fetch s).2 with
       | Raise _ => s' = s
       | Ok dati => ∃ r, r ∈ dati ∧ (∀ x, x ∈ dati → t x ≤ t r) ∧ s' = updated s r
       end)
    stations (enrich_data int_of_str client stations).1.1.
Proof.
  intros Hne. rewrite enrich_data_loop.
  destruct (enrich_loop_complete ((λ s, (s, (fetch s).2)) <$> stations)) as [Hr Hs].
  { apply Forall_fmap. exact Hne. }
  destruct (enrich_loop _) as [[st log] res]. simpl in *.
  split; [exact Hr|]. apply Forall2_fmap_l in Hs. exact Hs.
Qed.

(** In every run of [enrich_data], each station ends either as it was or
    with value and timestamp both from one latest reading of its own
    series. *)
Lemma enrich_data_matched_pair (stations : list Stazione) :
  Forall2
    (λ s s', s' = s ∨
       ∃ dati r, (fetch s).2 = Ok dati ∧ r ∈ dati ∧ (∀ x, x ∈ dati → t x ≤ t r) ∧
                 s' = updated s r)
    stations (enrich_data int_of_str client stations).1.1.
Proof.
  rewrite enrich_data_loop.
  pose proof (enrich_loop_matched_pair ((λ s, (s, (fetch s).2)) <$> stations)) as H.
  destruct (enrich_loop _) as [[st log] res]. simpl in *.
  apply Forall2_fmap_l in H. exact H.
Qed.

End Enrichment.

(** ** Enrichment of two stations, one of which fails *)

(** C3.  When the fetch for [A] gives the readings (100, 1.0) and
    (200, 2.0) and the fetch for [B] raises, [enrich_data] over [A] and
    [B], in either order, returns without raising; [A] ends with the
    timestamp 200 and the value 2.0, its other attributes as they were;
    [B] ends as it was; the failure of [B] is logged. *)
Theorem partial_failure_tolerated int_of_str client A B e :
  (apis.fetch_time_series int_of_str client A).2 =
    Ok [apis.mkValore 100 (PFloat sample.f1_0); apis.mkValore 200 (PFloat sample.f2_0)] →
  (apis.fetch_time_series int_of_str client B).2 = Raise e →
  let A' := apis.set_timestamp (apis.set_value A (PFloat sample.f2_0)) 200 in
  apis.timestamp A' = 200 ∧ apis.value A' = PFloat sample.f2_0 ∧
  (∃ log, apis.enrich_data int_of_str client [A; B] = ([A'; B], log, Ok tt) ∧
          apis.failed_record B ∈ log) ∧
  (∃ log, apis.enrich_data int_of_str client [B; A] = ([B; A'], log, Ok tt) ∧
          apis.failed_record B ∈ log).
Proof.
  intros HA HB A'. split; [reflexivity|]. split; [reflexivity|].
  unfold apis.enrich_data. simpl.
  destruct (apis.fetch_time_series int_of_str client A) as [logA rA].
  destruct (apis.fetch_time_series int_of_str client B) as [logB rB].
  simpl in HA, HB. subst rA rB. simpl. split.
  - eexists. split; [reflexivity|]. set_solver.
  - eexists. split; [reflexivity|]. set_solver.
Qed.

(** The stations [A] and [B] of the sample client: two readings for [A],
    the status 500 for [B]. *)
Lemma partial_failure_tolerated_witness :
  ∃ log,
    apis.enrich_data sample.int_of_str sample.series_client
      [sample.station "A" (PFloat sample.f0_5); sample.station "B" (PFloat sample.f0_5)]
    = ([apis.set_timestamp
          (apis.set_value (sample.station "A" (PFloat sample.f0_5)) (PFloat sample.f2_0)) 200;
        sample.station "B" (PFloat sample.f0_5)],
       log, Ok tt).
Proof.
  destruct (partial_failure_tolerated sample.int_of_str sample.series_client
              (sample.station "A" (PFloat sample.f0_5))
              (sample.station "B" (PFloat sample.f0_5))
              (HTTPStatusError 500))
    as (_ & _ & (log & Hrun & _) & _).
  - reflexivity.
  - reflexivity.
  - exists log. exact Hrun.
Defined.

(** ** Enrichment with an empty series *)

(** C1, on the code.  The fetch for station [E] succeeds with an empty
    list and writes no log record; [enrich_data] over [E] alone leaves
    [E] as it was and logs nothing, but raises [ValueError]. *)
Theorem empty_series_raises :
  apis.fetch_time_series sample.int_of_str sample.series_client
    (sample.station "E" (PFloat sample.f0_5)) = ([], Ok []) ∧
  apis.enrich_data sample.int_of_str sample.series_client
    [sample.station "E" (PFloat sample.f0_5)]
  = ([sample.station "E" (PFloat sample.f0_5)], [], Raise ValueError).
Proof. split; vm_compute; reflexivity. Qed.

(** C6, on the code.  The fetch for station [A] succeeds with two
    readings, but in a run over [E] and [A], where the series of [E] is
    empty, [enrich_data] raises at [E] and leaves [A] with the value and
    the timestamp it had. *)
Theorem station_after_empty_series_not_enriched :
  apis.fetch_time_series sample.int_of_str sample.series_client
    (sample.station "A" (PFloat sample.f0_5))
  = ([], Ok [apis.mkValore 100 (PFloat sample.f1_0);
             apis.mkValore 200 (PFloat sample.f2_0)]) ∧
  apis.enrich_data sample.int_of_str sample.series_client
    [sample.station "E" (PFloat sample.f0_5); sample.station "A" (PFloat sample.f0_5)]
  = ([sample.station "E" (PFloat sample.f0_5); sample.station "A" (PFloat sample.f0_5)],
     [], Raise ValueError).
Proof. split; vm_compute; reflexivity. Qed.

(** In the other order [A] is enriched before the run raises at [E]. *)
Lemma station_before_empty_series_enriched :
  apis.enrich_data sample.int_of_str sample.series_client
    [sample.station "A" (PFloat sample.f0_5); sample.station "E" (PFloat sample.f0_5)]
  = ([apis.set_timestamp
        (apis.set_value (sample.station "A" (PFloat sample.f0_5)) (PFloat sample.f2_0)) 200;
      sample.station "E" (PFloat sample.f0_5)],
     [], Raise ValueError).
Proof. vm_compute. reflexivity. Qed.

(** ** Further examples *)

(** A station constructed with the integer 0, which tests false. *)
Lemma zero_value_becomes_unknown_witness :
  apis.value
    (apis.Stazione_init apis.base_time (PStr "A") (PInt 1) (PStr "A")
       (PStr "12.24") (PStr "44.13")
       (PFloat sample.f1_0) (PFloat sample.f2_0) (PFloat sample.f3_0) (PInt 0))
  = PFloat apis.UNKNOWN_VALUE.
Proof.
  destruct (zero_value_becomes_unknown apis.base_time (PStr "A") (PInt 1) (PStr "A")
              (PStr "12.24") (PStr "44.13")
              (PFloat sample.f1_0) (PFloat sample.f2_0) (PFloat sample.f3_0))
    as (_ & Hfalsy & _).
  apply Hfalsy. reflexivity.
Defined.

(** [__post_init__] on a station whose value is 0.0 puts the sentinel,
    and keeps the value 0.5. *)
Lemma roster_zero_value_example :
  apis.value <$>
    [apis.Stazione_post_init (sample.station "A" (PFloat sample.f0_0));
     apis.Stazione_post_init (sample.station "A" (PFloat sample.f0_5))]
  = [PFloat apis.UNKNOWN_VALUE; PFloat sample.f0_5].
Proof. reflexivity. Qed.

(** The text of a message is [cleandoc] of the f-string over the computed
    fields, in both modules. *)
Lemma create_station_message_fields
    float_of_str strftime_rome str_of repr_float cleandoc self :
  apis.create_station_message float_of_str strftime_rome str_of repr_float cleandoc self
  = m ← apis.message_fields float_of_str strftime_rome self;
    Ok (cleandoc (apis.fstring str_of repr_float m)).
Proof. reflexivity. Qed.

Lemma tgbot_create_station_message_fields
    float_of_str strftime_rome str_of repr_float cleandoc station :
  tgbot.create_station_message float_of_str strftime_rome str_of repr_float cleandoc station
  = m ← tgbot.message_fields float_of_str strftime_rome station;
    Ok (cleandoc (tgbot.fstring str_of repr_float m)).
Proof. reflexivity. Qed.

(** ** The conversions and comparisons on concrete values *)

Lemma float_of_int_examples :
  float_of_int 3 = Ok sample.f3_0 ∧
  float_of_int (-9999) = Ok apis.UNKNOWN_VALUE ∧
  float_of_int (2 ^ 53 + 1) = Ok (Prim2SF 9007199254740992%float) ∧
  float_of_int (2 ^ 1024) = Raise OverflowError.
Proof. repeat split; vm_compute; reflexivity. Qed.

Lemma int_of_float_examples :
  int_of_float (Prim2SF (-2.5)%float) = Ok (-2) ∧
  int_of_float (Prim2SF 1726667100000%float) = Ok apis.base_time ∧
  int_of_float S754_nan = Raise ValueError ∧
  int_of_float (S754_infinity false) = Raise OverflowError.
Proof. repeat split; vm_compute; reflexivity. Qed.

Lemma float_cmp_int_examples :
  float_cmp_int sample.f0_5 0 = Some Gt ∧
  float_cmp_int sample.f0_5 1 = Some Lt ∧
  float_cmp_int (Prim2SF (-2.5)%float) (-2) = Some Lt ∧
  float_cmp_int sample.f2_0 2 = Some Eq ∧
  float_cmp_int S754_nan 0 = None.
Proof. repeat split; vm_compute; reflexivity. Qed.

Lemma truthy_examples :
  truthy (PFloat S754_nan) = true ∧
  truthy (PFloat (S754_zero true)) = false ∧
  truthy (PFloat apis.UNKNOWN_VALUE) = true ∧
  truthy (PInt 0) = false ∧ truthy (PStr "") = false ∧
  truthy (PStr "0") = true ∧ truthy (PList []) = false ∧
  truthy (PDict ∅) = false.
Proof. repeat split; reflexivity. Qed.

(** Of two readings with the same latest time, [max] keeps the first. *)
Lemma max_by_t_first_of_ties :
  apis.max_by_t
    [apis.mkValore 100 (PFloat sample.f1_0);
     apis.mkValore 200 (PFloat sample.f2_0);
     apis.mkValore 200 (PFloat sample.f3_0)]
  = Ok (apis.mkValore 200 (PFloat sample.f2_0)).
Proof. reflexivity. Qed.

(** The alarms at the thresholds 1.0, 2.0 and 3.0. *)
Lemma alarm_of_examples :
  apis.alarm_of sample.f0_5 (PFloat sample.f1_0) (PFloat sample.f2_0) (PFloat sample.f3_0)
    = Ok apis.green_circle ∧
  apis.alarm_of sample.f1_0 (PFloat sample.f1_0) (PFloat sample.f2_0) (PFloat sample.f3_0)
    = Ok apis.green_circle ∧
  apis.alarm_of sample.f2_0 (PFloat sample.f1_0) (PFloat sample.f2_0) (PFloat sample.f3_0)
    = Ok apis.yellow_circle ∧
  apis.alarm_of sample.f3_0 (PFloat sample.f1_0) (PFloat sample.f2_0) (PFloat sample.f3_0)
    = Ok apis.orange_circle ∧
  apis.alarm_of (Prim2SF 3.5%float) (PFloat sample.f1_0) (PFloat sample.f2_0) (PFloat sample.f3_0)
    = Ok apis.red_circle ∧
  apis.alarm_of sample.f2_0 (PInt 1) (PInt 2) (PInt 3) = Ok apis.yellow_circle ∧
  apis.alarm_of sample.f2_0 (PFloat sample.f1_0) (PStr "2.0") (PFloat sample.f3_0)
    = Raise TypeError.
Proof. repeat split; vm_compute; reflexivity. Qed.

(** * Further properties *)

(** ** The selection of the latest reading *)

Section Selection.

Import apis.

Lemma max_from_split (best : Valore) (dati : list Valore) :
  (max_from best dati = best ∧ Forall (λ x, t x ≤ t best) dati) ∨
  ∃ pre post, dati = pre ++ max_from best dati :: post ∧
    t best < t (max_from best dati) ∧
    Forall (λ x, t x < t (max_from best dati)) pre ∧
    Forall (λ x, t x ≤ t (max_from best dati)) post.
Proof.
  revert best. induction dati as [|y dati IH]; intros best; simpl.
  - left. split; [reflexivity | constructor].
  - destruct (Z.ltb_spec (t best) (t y)) as [Hlt|Hge].
    + right. destruct (IH y) as [[Heq Hall] | (pre & post & Hsplit & Hlt' & Hpre & Hpost)].
      * exists [], dati. rewrite Heq. simpl.
        split; [reflexivity|]. split; [exact Hlt|]. split; [constructor | exact Hall].
      * exists (y :: pre), post. split; [simpl; f_equal; exact Hsplit|].
        split; [lia|]. split; [constructor; [exact Hlt' | exact Hpre] | exact Hpost].
    + destruct (IH best) as [[Heq Hall] | (pre & post & Hsplit & Hlt' & Hpre & Hpost)].
      * left. split; [exact Heq|]. constructor; [exact Hge | exact Hall].
      * right. exists (y :: pre), post. split; [simpl; f_equal; exact Hsplit|].
        split; [exact Hlt'|]. split; [constructor; [lia | exact Hpre] | exact Hpost].
Qed.

(** [max] with the key [t] returns the first of the latest readings: every
    reading before the selected one is strictly earlier, and no reading
    after it is later. *)
Theorem max_by_t_first_latest (dati : list Valore) (r : Valore) :
  max_by_t dati = Ok r →
  ∃ pre post, dati = pre ++ r :: post ∧
    Forall (λ x, t x < t r) pre ∧ Forall (λ x, t x ≤ t r) post.
Proof.
  destruct dati as [|y dati]; simpl; [discriminate|]. intros [= <-].
  destruct (max_from_split y dati) as [[Heq Hall] | (pre & post & Hsplit & Hlt & Hpre & Hpost)].
  - exists [], dati. rewrite Heq. simpl.
    split; [reflexivity|]. split; [constructor | exact Hall].
  - exists (y :: pre), post. split; [simpl; f_equal; exact Hsplit|].
    split; [constructor; [exact Hlt | exact Hpre] | exact Hpost].
Qed.

End Selection.

Lemma max_by_t_first_latest_witness :
  ∃ pre post,
    [apis.mkValore 100 (PFloat sample.f1_0); apis.mkValore 200 (PFloat sample.f2_0);
     apis.mkValore 200 (PFloat sample.f3_0)]
    = pre ++ apis.mkValore 200 (PFloat sample.f2_0) :: post ∧
    Forall (λ x, apis.t x < 200) pre ∧ Forall (λ x, apis.t x ≤ 200) post.
Proof.
  apply (max_by_t_first_latest
           [apis.mkValore 100 (PFloat sample.f1_0); apis.mkValore 200 (PFloat sample.f2_0);
            apis.mkValore 200 (PFloat sample.f3_0)]
           (apis.mkValore 200 (PFloat sample.f2_0))).
  reflexivity.
Defined.

(** ** Runs of the enrichment *)

Section EnrichmentRuns.

Import apis.

Variable int_of_str : string → outcome Z.
Variable client : Client.

Local Abbreviation fetch := (fetch_time_series int_of_str client).
Local Abbreviation run := (enrich_data int_of_str client).

Lemma enrich_loop_outcome (pairs : list (Stazione * outcome (list Valore))) :
  ((enrich_loop pairs).2 = Ok tt ∧ Forall (λ p, p.2 ≠ Ok []) pairs) ∨
  ((enrich_loop pairs).2 = Raise ValueError ∧ Exists (λ p, p.2 = Ok []) pairs).
Proof.
  induction pairs as [|[s [dati|e]] pairs IH]; simpl.
  - left. split; [reflexivity | constructor].
  - destruct dati as [|y dati]; simpl.
    + right. split; [reflexivity|]. left. reflexivity.
    + destruct (enrich_loop pairs) as [[st log] res]. simpl in *.
      destruct IH as [[Hr Hall] | [Hr Hex]]; [left | right]; split; try exact Hr.
      * constructor; [simpl; discriminate | exact Hall].
      * right. exact Hex.
  - destruct (enrich_loop pairs) as [[st log] res]. simpl in *.
    destruct IH as [[Hr Hall] | [Hr Hex]]; [left | right]; split; try exact Hr.
    + constructor; [simpl; discriminate | exact Hall].
    + right. exact Hex.
Qed.

Lemma Forall_not_Exists_empty (stations : list Stazione) :
  Forall (λ s, (fetch s).2 ≠ Ok []) stations →
  Exists (λ s, (fetch s).2 = Ok []) stations → False.
Proof.
  intros Hall Hex. apply Exists_exists in Hex as (s & Hin & Hs).
  rewrite Forall_forall in Hall. exact (Hall s Hin Hs).
Qed.

(** [enrich_data] returns exactly when no series is empty, and raises
    [ValueError] exactly when some series is; it raises nothing else,
    whatever the fetches raise. *)
Theorem enrich_data_raises_iff (stations : list Stazione) :
  ((run stations).2 = Ok tt ↔ Forall (λ s, (fetch s).2 ≠ Ok []) stations) ∧
  ((run stations).2 = Raise ValueError ↔ Exists (λ s, (fetch s).2 = Ok []) stations) ∧
  (∀ e, (run stations).2 = Raise e → e = ValueError).
Proof.
  rewrite enrich_data_loop.
  pose proof (enrich_loop_outcome ((λ s, (s, (fetch s).2)) <$> stations)) as H.
  destruct (enrich_loop _) as [[st log] res]. simpl in *.
  rewrite Forall_fmap, Exists_fmap in H.
  destruct H as [[-> Hall] | [-> Hex]].
  - split; [split; auto|]. split; [|discriminate].
    split; [discriminate|]. intros Hex. destruct (Forall_not_Exists_empty _ Hall Hex).
  - split; [|split; [split; auto | congruence]].
    split; [discriminate|]. intros Hall. destruct (Forall_not_Exists_empty _ Hall Hex).
Qed.

(** In every run, complete or not, [enrich_data] keeps the number and the
    order of the stations and changes nothing but value and timestamp. *)
Theorem enrich_data_frame (stations : list Stazione) :
  length (run stations).1.1 = length stations ∧
  Forall2 same_identity stations (run stations).1.1.
Proof.
  pose proof (enrich_loop_matched_pair ((λ s, (s, (fetch s).2)) <$> stations)) as H.
  rewrite enrich_data_loop.
  destruct (enrich_loop _) as [[st log] res]. simpl in *.
  apply Forall2_fmap_l in H.
  split; [symmetry; eapply Forall2_length, H|].
  eapply Forall2_impl; [exact H|]. simpl.
  intros s s' [-> | (dati & r & _ & _ & _ & ->)]; repeat split.
Qed.

Lemma enrich_loop_app_empty pre s post :
  Forall (λ p, p.2 ≠ Ok []) pre →
  enrich_loop (pre ++ (s, Ok []) :: post) =
  ((enrich_loop pre).1.1 ++ s :: post.*1, (enrich_loop pre).1.2, Raise ValueError).
Proof.
  induction 1 as [|[s0 [dati|e]] pre Hne _ IH]; simpl.
  - reflexivity.
  - destruct (max_by_t_nonempty dati) as [r Hmax]; [simpl in Hne; congruence|].
    rewrite Hmax, IH. destruct (enrich_loop pre) as [[st log] res]. reflexivity.
  - rewrite IH. destruct (enrich_loop pre) as [[st log] res]. reflexivity.
Qed.

(** The first empty series ends the run: the stations before it are
    enriched as in a run over them alone, the station itself and all the
    stations after it are left as they were. *)
Theorem enrich_data_stops_at_empty_series (pre post : list Stazione) (s : Stazione) :
  Forall (λ s, (fetch s).2 ≠ Ok []) pre →
  (fetch s).2 = Ok [] →
  (run (pre ++ s :: post)).1.1 = (run pre).1.1 ++ s :: post ∧
  (run (pre ++ s :: post)).2 = Raise ValueError.
Proof.
  intros Hpre Hs. rewrite !enrich_data_loop, fmap_app, fmap_cons, Hs.
  rewrite enrich_loop_app_empty by (apply Forall_fmap; exact Hpre).
  destruct (enrich_loop ((λ s, (s, (fetch s).2)) <$> pre)) as [[st log] res]. simpl.
  split; [|reflexivity]. do 2 f_equal.
  rewrite <- list_fmap_compose. apply list_fmap_id.
Qed.

Lemma gather_log (stations : list Stazione) :
  (gather int_of_str client stations).1 = concat ((λ s, (fetch s).1) <$> stations).
Proof.
  induction stations as [|s stations IH]; [reflexivity|]. simpl.
  destruct (fetch s) as [log1 dati].
  destruct (gather int_of_str client stations) as [log2 results].
  simpl in *. rewrite IH. reflexivity.
Qed.

Lemma enrich_loop_complete_log (pairs : list (Stazione * outcome (list Valore))) :
  Forall (λ p, p.2 ≠ Ok []) pairs →
  (enrich_loop pairs).1.2 =
  failed_record <$> (filter (λ p, raised p.2 = true) pairs).*1.
Proof.
  induction 1 as [|[s [dati|e]] pairs Hne _ IH]; cbn [enrich_loop].
  - reflexivity.
  - destruct (max_by_t_nonempty dati) as [r Hmax]; [simpl in Hne; congruence|].
    rewrite Hmax. rewrite filter_cons_False by (simpl; discriminate).
    destruct (enrich_loop pairs) as [[st log] res]. exact IH.
  - rewrite filter_cons_True by reflexivity.
    destruct (enrich_loop pairs) as [[st log] res]. simpl in *. rewrite IH. reflexivity.
Qed.

Lemma enrich_data_log_eq (stations : list Stazione) :
  Forall (λ s, (fetch s).2 ≠ Ok []) stations →
  (run stations).1.2 =
  concat ((λ s, (fetch s).1) <$> stations)
  ++ (failed_record <$> filter (λ s, raised (fetch s).2 = true) stations).
Proof.
  intros Hne. rewrite enrich_data_loop.
  pose proof (enrich_loop_complete_log ((λ s, (s, (fetch s).2)) <$> stations)) as H.
  destruct (enrich_loop _) as [[st log] res]. simpl in *.
  rewrite gather_log, H by (apply Forall_fmap; exact Hne). do 2 f_equal.
  clear. induction stations as [|s stations IH]; [reflexivity|].
  rewrite fmap_cons. destruct (raised (fetch s).2) eqn:Hs.
  - rewrite (filter_cons_True (λ p : Stazione * _, raised p.2 = true)) by exact Hs.
    rewrite (filter_cons_True (λ s, raised (fetch s).2 = true)) by exact Hs.
    simpl. f_equal. exact IH.
  - rewrite (filter_cons_False (λ p : Stazione * _, raised p.2 = true))
      by (simpl; congruence).
    rewrite (filter_cons_False (λ s, raised (fetch s).2 = true)) by congruence.
    exact IH.
Qed.

(** The log of a run in which no series is empty: first the records that
    the fetches wrote, in some order, then one record [Failed to fetch
    time series] for each station whose fetch raised, in the order of
    the stations, and none for a station whose fetch succeeded. *)
Theorem enrich_data_log (stations : list Stazione) :
  Forall (λ s, (fetch s).2 ≠ Ok []) stations →
  ∃ fetched,
    fetched ≡ₚ concat ((λ s, (fetch s).1) <$> stations) ∧
    (run stations).1.2 =
    fetched ++ (failed_record <$> filter (λ s, raised (fetch s).2 = true) stations).
Proof.
  intros Hne. eexists. split; [reflexivity|]. apply enrich_data_log_eq, Hne.
Qed.

End EnrichmentRuns.

(** The run over the sample stations [A] and [B]: no series is empty. *)
Lemma sample_series_not_empty :
  Forall
    (λ s, (apis.fetch_time_series sample.int_of_str sample.series_client s).2 ≠ Ok [])
    [sample.station "A" (PFloat sample.f0_5); sample.station "B" (PFloat sample.f0_5)].
Proof. repeat constructor; vm_compute; discriminate. Qed.

Lemma enrich_data_updates_witness :
  (apis.enrich_data sample.int_of_str sample.series_client
     [sample.station "A" (PFloat sample.f0_5); sample.station "B" (PFloat sample.f0_5)]).2
  = Ok tt.
Proof.
  exact (proj1 (enrich_data_updates sample.int_of_str sample.series_client
                  [sample.station "A" (PFloat sample.f0_5);
                   sample.station "B" (PFloat sample.f0_5)]
                  sample_series_not_empty)).
Defined.

Lemma enrich_data_log_witness :
  ∃ fetched,
    fetched ≡ₚ
      concat ((λ s, (apis.fetch_time_series sample.int_of_str sample.series_client s).1)
              <$> [sample.station "A" (PFloat sample.f0_5);
                   sample.station "B" (PFloat sample.f0_5)]) ∧
    (apis.enrich_data sample.int_of_str sample.series_client
       [sample.station "A" (PFloat sample.f0_5);
        sample.station "B" (PFloat sample.f0_5)]).1.2
    = fetched ++ [apis.failed_record (sample.station "B" (PFloat sample.f0_5))].
Proof.
  exact (enrich_data_log sample.int_of_str sample.series_client
           [sample.station "A" (PFloat sample.f0_5);
            sample.station "B" (PFloat sample.f0_5)]
           sample_series_not_empty).
Defined.

Lemma enrich_data_stops_at_empty_series_witness :
  (apis.enrich_data sample.int_of_str sample.series_client
     ([sample.station "A" (PFloat sample.f0_5); sample.station "B" (PFloat sample.f0_5)]
      ++ sample.station "E" (PFloat sample.f0_5)
      :: [sample.station "A" (PFloat sample.f1_0)])).2
  = Raise ValueError.
Proof.
  apply (enrich_data_stops_at_empty_series sample.int_of_str sample.series_client
           [sample.station "A" (PFloat sample.f0_5); sample.station "B" (PFloat sample.f0_5)]
           [sample.station "A" (PFloat sample.f1_0)]
           (sample.station "E" (PFloat sample.f0_5))).
  - exact sample_series_not_empty.
  - reflexivity.
Defined.

(** ** The fetch of a time series *)

Section TimeSeries.

Import apis.

Variable int_of_str : string → outcome Z.
Variable client : Client.

Local Abbreviation fetch := (fetch_time_series int_of_str client).

(** [int] on a string raises nothing but [ValueError]. *)
Hypothesis int_of_str_raises : ∀ s e, int_of_str s = Raise e → e = ValueError.

Lemma py_int_Raise x e :
  py_int int_of_str x = Raise e → e = TypeError ∨ e = ValueError ∨ e = OverflowError.
Proof.
  destruct x as [|b|z|f|s|l|d]; simpl; try (intros [= <-]; auto); try discriminate.
  - destruct f; simpl; try discriminate; intros [= <-]; auto.
  - intros H. apply int_of_str_raises in H. auto.
Qed.

Lemma Valore_kw_Raise x e :
  Valore_kw int_of_str x = Raise e → e = TypeError ∨ e = ValueError ∨ e = OverflowError.
Proof.
  destruct x as [|b|z|f|s|l|d]; simpl; try (intros [= <-]; auto).
  destruct (d !! "t") as [t0|]; [|intros [= <-]; auto].
  destruct (d !! "v") as [v0|]; [|intros [= <-]; auto].
  destruct (Nat.eqb (size d) 2); [|intros [= <-]; auto].
  destruct (py_int int_of_str t0) as [z|e'] eqn:Hz; simpl; [discriminate|].
  intros [= <-]. eapply py_int_Raise, Hz.
Qed.

(** [fetch_time_series] writes a log record only for a status error, and
    then exactly one, with the name and the identifier of the station and
    the status; the handler for [KeyError] is never reached, since no
    step of the fetch raises [KeyError]. *)
Theorem fetch_time_series_log (s : Stazione) :
  ((fetch s).1 = [] ∨
   ∃ c, fetch s =
        ([mkLog "Error fetching time series for stagiong %s %s: %s"
            [ArgVal (nomestaz s); ArgVal (idstazione s); ArgStatus c]],
         Raise (HTTPStatusError c))) ∧
  (fetch s).2 ≠ Raise KeyError.
Proof.
  unfold fetch_time_series.
  destruct (get client (TimeSeries (idstazione s))) as [response|e] eqn:Hget;
    cbn [mbind outcome_bind].
  2:{ unfold get in Hget. destruct (client _); inversion Hget; subst.
      split; [left; reflexivity | discriminate]. }
  destruct (raise_for_status response) as [[]|e] eqn:Hst; cbn [mbind outcome_bind].
  2:{ unfold raise_for_status in Hst. destruct (_ && _); inversion Hst; subst.
      split; [right; eexists; reflexivity | discriminate]. }
  destruct (json response) as [data|e] eqn:Hjs; cbn [mbind outcome_bind].
  2:{ unfold json in Hjs. destruct (body _); inversion Hjs; subst.
      split; [left; reflexivity | discriminate]. }
  destruct (py_iter data) as [records|e] eqn:Hit; cbn [mbind outcome_bind].
  2:{ destruct data; simpl in Hit; inversion Hit; subst;
      (split; [left; reflexivity | discriminate]). }
  destruct (mapM (Valore_kw int_of_str) records) as [l|e] eqn:Hm.
  - split; [left; reflexivity | discriminate].
  - apply mapM_Raise in Hm as (x & _ & Hx).
    destruct (Valore_kw_Raise _ _ Hx) as [-> | [-> | ->]];
      (split; [left; reflexivity | discriminate]).
Qed.

Lemma fetch_time_series_records (s : Stazione) (records : list pyval) :
  series_response client s records →
  fetch s = ([], mapM (Valore_kw int_of_str) records).
Proof.
  intros (response & Hget & [Hlo Hhi] & Hbody).
  unfold fetch_time_series, get. rewrite Hget. cbn [mbind outcome_bind].
  unfold raise_for_status.
  destruct (Z.leb_spec 200 (status_code response)); [|lia].
  destruct (Z.leb_spec (status_code response) 299); [|lia].
  cbn [andb mbind outcome_bind]. unfold json. rewrite Hbody.
  cbn [mbind outcome_bind py_iter].
  destruct (mapM _ _) as [l|e] eqn:Hm; [reflexivity|].
  apply mapM_Raise in Hm as (x & _ & Hx).
  destruct (Valore_kw_Raise _ _ Hx) as [-> | [-> | ->]]; reflexivity.
Qed.

Lemma fetch_time_series_records_Ok (s : Stazione) (records : list pyval) l :
  series_response client s records →
  mapM (Valore_kw int_of_str) records = Ok l →
  fetch s = ([], Ok l).
Proof.
  intros (response & Hget & [Hlo Hhi] & Hbody) Hm.
  unfold fetch_time_series, get. rewrite Hget. cbn [mbind outcome_bind].
  unfold raise_for_status.
  destruct (Z.leb_spec 200 (status_code response)); [|lia].
  destruct (Z.leb_spec (status_code response) 299); [|lia].
  cbn [andb mbind outcome_bind]. unfold json. rewrite Hbody.
  cbn [mbind outcome_bind py_iter]. rewrite Hm. reflexivity.
Qed.

(** A list of objects with exactly the keys [t] and [v], [t] an integer,
    is decoded to the readings with those times and values, in order, and
    nothing is logged. *)
Theorem fetch_time_series_decodes (s : Stazione) (readings : list (Z * pyval)) :
  series_response client s
    ((λ r, PDict (<["t" := PInt r.1]> {["v" := r.2]})) <$> readings) →
  fetch s = ([], Ok ((λ r, mkValore r.1 r.2) <$> readings)).
Proof.
  intros Hresp. apply (fetch_time_series_records_Ok _ _ _ Hresp).
  clear Hresp. induction readings as [|[z x] readings IH]; [reflexivity|].
  rewrite !fmap_cons. cbn [mapM]. rewrite IH.
  unfold Valore_kw. rewrite lookup_insert_eq.
  rewrite lookup_insert_ne by discriminate. rewrite lookup_singleton_eq.
  rewrite map_size_insert_None by (rewrite lookup_singleton_ne; [reflexivity | discriminate]).
  rewrite map_size_singleton. reflexivity.
Qed.

(** A reading that lacks [t] or [v] makes the whole fetch raise, and the
    failure is not logged. *)
Theorem fetch_time_series_missing_key (s : Stazione) (records : list pyval)
    (d : gmap string pyval) :
  series_response client s records →
  PDict d ∈ records →
  d !! "t" = None ∨ d !! "v" = None →
  (fetch s).1 = [] ∧ raised (fetch s).2 = true.
Proof.
  intros Hresp Hin Hmiss. rewrite (fetch_time_series_records _ _ Hresp).
  split; [reflexivity|]. simpl.
  destruct (mapM_rejected (Valore_kw int_of_str) records (PDict d) TypeError Hin)
    as [e ->]; [|reflexivity].
  simpl. destruct Hmiss as [-> | Hv]; [reflexivity|].
  rewrite Hv. destruct (d !! "t"); reflexivity.
Qed.

End TimeSeries.

Lemma sample_int_of_str_raises s e : sample.int_of_str s = Raise e → e = ValueError.
Proof. intros [= <-]. reflexivity. Qed.

Lemma fetch_time_series_log_witness :
  (apis.fetch_time_series sample.int_of_str sample.series_client
     (sample.station "B" (PFloat sample.f0_5))).2 ≠ Raise KeyError.
Proof.
  exact (proj2 (fetch_time_series_log sample.int_of_str sample.series_client
                  sample_int_of_str_raises (sample.station "B" (PFloat sample.f0_5)))).
Defined.

Lemma fetch_time_series_decodes_witness :
  apis.fetch_time_series sample.int_of_str sample.series_client
    (sample.station "A" (PFloat sample.f0_5))
  = ([], Ok [apis.mkValore 100 (PFloat sample.f1_0);
             apis.mkValore 200 (PFloat sample.f2_0)]).
Proof.
  apply (fetch_time_series_decodes sample.int_of_str sample.series_client
           (sample.station "A" (PFloat sample.f0_5))
           [(100, PFloat sample.f1_0); (200, PFloat sample.f2_0)]).
  eexists. split; [reflexivity|]. split; [simpl; lia | reflexivity].
Defined.

Lemma fetch_time_series_missing_key_witness :
  (apis.fetch_time_series sample.int_of_str
     (sample.answering (PList cases.broken_series))
     (sample.station "A" (PFloat sample.f0_5))).1 = [] ∧
  raised
    (apis.fetch_time_series sample.int_of_str
       (sample.answering (PList cases.broken_series))
       (sample.station "A" (PFloat sample.f0_5))).2 = true.
Proof.
  apply (fetch_time_series_missing_key sample.int_of_str
           (sample.answering (PList cases.broken_series))
           sample_int_of_str_raises
           (sample.station "A" (PFloat sample.f0_5))
           cases.broken_series {[ "t" := PInt 200 ]}).
  - eexists. split; [reflexivity|]. split; [simpl; lia | reflexivity].
  - right. left.
  - right. reflexivity.
Defined.

(** ** What the roster fetch accepts *)

Section RosterAcceptance.

Import apis.

(** The constructor accepts exactly the records with the nine attributes
    of a station: none missing, none besides. *)
Lemma Stazione_kw_accepts ts kw :
  (∃ s, Stazione_kw ts kw = Ok s) ↔ station_record kw.
Proof.
  split; [|apply Stazione_kw_station_record].
  intros [s Hs].
  apply Stazione_kw_Ok in Hs
    as (i & o & n & lo & la & s1 & s2 & s3 & x &
        Hi & Ho & Hn & Hlo & Hla & H1 & H2 & H3 & Hx & Hsz & _).
  unfold station_record. symmetry.
  apply set_subseteq_size_eq.
  - intros k Hk. apply elem_of_dom. unfold station_keys in Hk. set_unfold in Hk.
    repeat (destruct Hk as [-> | Hk]; [eauto|]). destruct Hk.
  - rewrite size_dom, Hsz, size_station_keys. reflexivity.
Qed.

Lemma station_record_normalize (d : gmap string pyval) :
  station_record (normalize d) ↔ station_record d.
Proof. unfold station_record, normalize. rewrite dom_fmap_L. reflexivity. Qed.

(** On a list of objects the roster fetch logs nothing and either returns
    the stations, every record without [time] having exactly the nine
    attributes of a station, or raises [TypeError], some record without
    [time] lacking an attribute or holding one besides. *)
Theorem fetch_stations_data_accepts client time records :
  roster_response client time records →
  (∃ stations, fetch_stations_data client time = ([], Ok stations) ∧
     Forall (λ d, carries_time d = false → station_record d) records) ∨
  (fetch_stations_data client time = ([], Raise TypeError) ∧
   Exists (λ d, carries_time d = false ∧ ¬ station_record d) records).
Proof.
  intros Hresp. rewrite (fetch_stations_data_records _ _ _ Hresp).
  destruct (mapM _ _) as [stations|e] eqn:Hm.
  - left. exists stations. split; [reflexivity|].
    apply mapM_Ok in Hm. apply Forall_forall. intros d Hd Hnt.
    assert (Hin : d ∈ filter (λ d, carries_time d = false) records)
      by (apply list_elem_of_filter; auto).
    apply list_elem_of_lookup in Hin as [i Hi].
    destruct (Forall2_lookup_l _ _ _ _ _ Hm Hi) as (s & _ & Hs).
    apply station_record_normalize, (Stazione_kw_accepts time). eauto.
  - right. apply mapM_Raise in Hm as (d & Hin & Hd).
    apply list_elem_of_filter in Hin as [Hnt Hin].
    rewrite (Stazione_kw_Raise _ _ _ Hd). split; [reflexivity|].
    apply Exists_exists. exists d. split; [exact Hin|]. split; [exact Hnt|].
    intros Hrec. apply station_record_normalize in Hrec.
    apply (Stazione_kw_accepts time) in Hrec as [s Hs]. congruence.
Qed.

Lemma normalize_lookup_not_None (d : gmap string pyval) (k : string) (x : pyval) :
  normalize d !! k = Some x → x ≠ PNone.
Proof.
  rewrite normalize_lookup. destruct (d !! k) as [y|]; simpl; [|discriminate].
  intros [= <-]. destruct y; discriminate.
Qed.

Lemma roster_normalized time data stations :
  roster time data = Ok stations →
  Forall (λ s, timestamp s = time ∧ no_None s) stations.
Proof.
  revert stations. induction data as [|x data IH]; simpl; intros stations.
  - intros [= <-]. constructor.
  - destruct (py_in "time" x) as [[]|e1]; simpl; [apply IH| |discriminate].
    destruct (items x) as [d|e2]; simpl; [|discriminate].
    destruct (Stazione_kw time (normalize d)) as [s|e3] eqn:Hs; simpl; [|discriminate].
    destruct (roster time data) as [l|e4]; simpl; [|discriminate].
    intros [= <-]. constructor; [|apply IH; reflexivity].
    apply Stazione_kw_Ok in Hs
      as (i & o & n & lo & la & s1 & s2 & s3 & y &
          Hi & Ho & Hn & Hlo & Hla & H1 & H2 & H3 & Hy & _ & ->).
    split; [reflexivity|]. unfold no_None. simpl.
    repeat split; try (eapply normalize_lookup_not_None; eassumption).
    apply py_or_not_None.
Qed.

Lemma roster_built_from time records stations :
  roster time records = Ok stations →
  ∃ ds, sublist (PDict <$> ds) records ∧ Forall2 (built_from time) ds stations.
Proof.
  revert stations. induction records as [|x records IH]; simpl; intros stations.
  - intros [= <-]. exists []. split; constructor.
  - destruct (py_in "time" x) as [[]|e1]; simpl; [| |discriminate].
    { intros Hr. destruct (IH _ Hr) as (ds & Hsub & Hall).
      exists ds. split; [constructor; exact Hsub | exact Hall]. }
    destruct (items x) as [d|e2] eqn:Hx; simpl; [|discriminate].
    destruct (Stazione_kw time (normalize d)) as [s|e3] eqn:Hs; simpl; [|discriminate].
    destruct (roster time records) as [l|e4]; simpl; [|discriminate].
    intros [= <-]. destruct (IH _ eq_refl) as (ds & Hsub & Hall).
    exists (d :: ds). split.
    + destruct x; simpl in Hx; try discriminate. injection Hx as ->.
      rewrite fmap_cons. constructor. exact Hsub.
    + constructor; [apply Stazione_kw_built_from, Hs | exact Hall].
Qed.

Lemma fetch_stations_data_Ok_body client time log stations :
  fetch_stations_data client time = (log, Ok stations) →
  ∃ response data records,
    client (SensorValues time) = Some response ∧ body response = Some data ∧
    py_iter data = Ok records ∧ roster time records = Ok stations.
Proof.
  unfold fetch_stations_data, get.
  destruct (client (SensorValues time)) as [response|] eqn:Hget;
    cbn [mbind outcome_bind]; [|discriminate].
  destruct (raise_for_status response) as [[]|e];
    cbn [mbind outcome_bind]; [|destruct e; discriminate].
  unfold json. destruct (body response) as [data|] eqn:Hbody;
    cbn [mbind outcome_bind]; [|discriminate].
  destruct (py_iter data) as [records|e] eqn:Hit;
    cbn [mbind outcome_bind]; [|destruct e; discriminate].
  destruct (roster time records) as [l|e] eqn:Hr; [|destruct e; discriminate].
  intros [= _ <-]. exists response, data, records.
  repeat split; assumption || reflexivity.
Qed.

(** Every station that the roster fetch returns carries the requested
    time as its timestamp, and none of its attributes is [None].  The
    stations are, in order, objects of the response body converted:
    each attribute is the field of the object, and a null of the object,
    in any field, has become the sentinel. *)
Theorem fetch_stations_data_normalized client time log stations :
  fetch_stations_data client time = (log, Ok stations) →
  Forall (λ s, timestamp s = time ∧ no_None s) stations ∧
  ∃ response data records ds,
    client (SensorValues time) = Some response ∧ body response = Some data ∧
    py_iter data = Ok records ∧
    sublist (PDict <$> ds) records ∧
    Forall2 (built_from time) ds stations.
Proof.
  intros Hfetch. split.
  - apply fetch_stations_data_Ok in Hfetch as [data Hr].
    eapply roster_normalized, Hr.
  - apply fetch_stations_data_Ok_body in Hfetch
      as (response & data & records & Hget & Hbody & Hit & Hr).
    destruct (roster_built_from _ _ _ Hr) as (ds & Hsub & Hall).
    exists response, data, records, ds. repeat split; assumption.
Qed.

(** The roster fetch writes a log record only for a status error, and
    then exactly one, with the status; it never raises [KeyError] or
    [IndexError], so its handler for them is never reached. *)
Theorem fetch_stations_data_logs_status_only client time :
  ((fetch_stations_data client time).1 = [] ∨
   ∃ c, fetch_stations_data client time =
        ([mkLog "Error fetching stations data: %s" [ArgStatus c]],
         Raise (HTTPStatusError c))) ∧
  (fetch_stations_data client time).2 ≠ Raise KeyError ∧
  (fetch_stations_data client time).2 ≠ Raise IndexError.
Proof.
  destruct (fetch_stations_data client time) as [log r] eqn:Hfetch. simpl.
  pose proof (fetch_stations_data_log _ _ _ _ Hfetch) as Hlog.
  assert (Hhandled : r = Raise KeyError ∨ r = Raise IndexError → log ≠ []).
  { revert Hfetch. unfold fetch_stations_data.
    destruct (_ ≫= _) as [l|e]; [intros [= <- <-] [H|H]; discriminate|].
    destruct e; intros [= <- <-] [H|H]; discriminate. }
  split; [|split].
  - destruct Hlog as [-> | (c & -> & ->)]; [left | right; exists c]; reflexivity.
  - intros ->. destruct Hlog as [-> | (c & Hc & _)]; [|discriminate].
    apply Hhandled; auto.
  - intros ->. destruct Hlog as [-> | (c & Hc & _)]; [|discriminate].
    apply Hhandled; auto.
Qed.

End RosterAcceptance.

Lemma fetch_stations_data_accepts_witness :
  apis.fetch_stations_data
    (sample.answering
       (PList (PDict <$> [sample.record "A" (PFloat sample.f0_5); cases.record_with_extra])))
    apis.base_time
  = ([], Raise TypeError).
Proof.
  destruct (fetch_stations_data_accepts
              (sample.answering
                 (PList (PDict <$> [sample.record "A" (PFloat sample.f0_5);
                                    cases.record_with_extra])))
              apis.base_time
              [sample.record "A" (PFloat sample.f0_5); cases.record_with_extra])
    as [(stations & Hfetch & _) | [Hfetch _]].
  - eexists. split; [reflexivity|]. split; [simpl; lia | reflexivity].
  - vm_compute in Hfetch. discriminate Hfetch.
  - exact Hfetch.
Defined.

Lemma fetch_stations_data_normalized_witness :
  Forall (λ s, apis.timestamp s = apis.base_time ∧ no_None s)
    [apis.mkStazione apis.base_time (PStr "A") (PInt 1) (PStr "A")
       (PStr "12.24") (PStr "44.13")
       (PFloat sample.f1_0) (PFloat sample.f2_0) (PFloat sample.f3_0) (PFloat sample.f0_5);
     apis.mkStazione apis.base_time (PStr "N") (PInt 1) (PStr "N")
       (PStr "12.24") (PStr "44.13")
       (PFloat apis.UNKNOWN_VALUE) (PFloat apis.UNKNOWN_VALUE) (PFloat apis.UNKNOWN_VALUE)
       (PFloat sample.f0_5)] ∧
  ∃ ds,
    Forall2 (built_from apis.base_time) ds
      [apis.mkStazione apis.base_time (PStr "A") (PInt 1) (PStr "A")
         (PStr "12.24") (PStr "44.13")
         (PFloat sample.f1_0) (PFloat sample.f2_0) (PFloat sample.f3_0) (PFloat sample.f0_5);
       apis.mkStazione apis.base_time (PStr "N") (PInt 1) (PStr "N")
         (PStr "12.24") (PStr "44.13")
         (PFloat apis.UNKNOWN_VALUE) (PFloat apis.UNKNOWN_VALUE) (PFloat apis.UNKNOWN_VALUE)
         (PFloat sample.f0_5)].
Proof.
  destruct (fetch_stations_data_normalized
              (sample.answering
                 (PList [PDict (sample.record "A" (PFloat sample.f0_5));
                         PDict sample.time_record;
                         PDict cases.record_without_thresholds]))
              apis.base_time []
              [apis.mkStazione apis.base_time (PStr "A") (PInt 1) (PStr "A")
                 (PStr "12.24") (PStr "44.13")
                 (PFloat sample.f1_0) (PFloat sample.f2_0) (PFloat sample.f3_0)
                 (PFloat sample.f0_5);
               apis.mkStazione apis.base_time (PStr "N") (PInt 1) (PStr "N")
                 (PStr "12.24") (PStr "44.13")
                 (PFloat apis.UNKNOWN_VALUE) (PFloat apis.UNKNOWN_VALUE)
                 (PFloat apis.UNKNOWN_VALUE) (PFloat sample.f0_5)])
    as (Hnone & response & data & records & ds & _ & _ & _ & _ & Hall).
  - vm_compute. reflexivity.
  - split; [exact Hnone|]. exists ds. exact Hall.
Defined.

(** ** Status errors and the latest time *)

Section StatusErrors.

Import apis.

Variable int_of_str : string → outcome Z.
Variable client : Client.

Lemma error_response_get url c :
  error_response client url c →
  ∃ response, get client url = Ok response ∧
              raise_for_status response = Raise (HTTPStatusError c).
Proof.
  intros (response & Hget & Hc & Hnot). exists response.
  unfold get, raise_for_status. rewrite Hget, Hc. split; [reflexivity|].
  destruct (Z.leb_spec 200 c); destruct (Z.leb_spec c 299); simpl; try reflexivity.
  lia.
Qed.

(** A response with a status outside 2xx makes each of the three fetches
    write one log record that carries the status (and, for a time series,
    the name and the identifier of the station) and raise
    [HTTPStatusError] with that status; the body is not looked at. *)
Theorem status_error_logged_and_raised (c : Z) :
  (∀ time, error_response client (SensorValues time) c →
     fetch_stations_data client time =
     ([mkLog "Error fetching stations data: %s" [ArgStatus c]],
      Raise (HTTPStatusError c))) ∧
  (error_response client (SensorValues base_time) c →
     fetch_latest_time int_of_str client =
     ([mkLog "Error fetching latest time: %s" [ArgStatus c]],
      Raise (HTTPStatusError c))) ∧
  (∀ s, error_response client (TimeSeries (idstazione s)) c →
     fetch_time_series int_of_str client s =
     ([mkLog "Error fetching time series for stagiong %s %s: %s"
         [ArgVal (nomestaz s); ArgVal (idstazione s); ArgStatus c]],
      Raise (HTTPStatusError c))).
Proof.
  split; [|split].
  - intros time H. destruct (error_response_get _ _ H) as (r & Hget & Hst).
    unfold fetch_stations_data. rewrite Hget. cbn [mbind outcome_bind].
    rewrite Hst. reflexivity.
  - intros H. destruct (error_response_get _ _ H) as (r & Hget & Hst).
    unfold fetch_latest_time. rewrite Hget. cbn [mbind outcome_bind].
    rewrite Hst. reflexivity.
  - intros s H. destruct (error_response_get _ _ H) as (r & Hget & Hst).
    unfold fetch_time_series. rewrite Hget. cbn [mbind outcome_bind].
    rewrite Hst. reflexivity.
Qed.

Lemma fetch_latest_time_data (data : pyval) :
  latest_time_response client data →
  fetch_latest_time int_of_str client =
  let r := first ← getitem_0 data; time ← getitem_time first; py_int int_of_str time in
  match r with
  | Raise (HTTPStatusError c) =>
      ([mkLog "Error fetching latest time: %s" [ArgStatus c]], r)
  | Raise KeyError | Raise IndexError =>
      ([mkLog "Error fetching latest time: KeyError or IndexError" []], r)
  | _ => ([], r)
  end.
Proof.
  intros (response & Hget & [Hlo Hhi] & Hbody).
  unfold fetch_latest_time, get. rewrite Hget. cbn [mbind outcome_bind].
  unfold raise_for_status.
  destruct (Z.leb_spec 200 (status_code response)); [|lia].
  destruct (Z.leb_spec (status_code response) 299); [|lia].
  cbn [andb mbind outcome_bind]. unfold json. rewrite Hbody.
  reflexivity.
Qed.

(** The latest time is the [time] of the first object of the list; the
    rest of the list is not looked at, and nothing is logged. *)
Theorem fetch_latest_time_first_record (d : gmap string pyval) (rest : list pyval) (z : Z) :
  latest_time_response client (PList (PDict d :: rest)) →
  d !! "time" = Some (PInt z) →
  fetch_latest_time int_of_str client = ([], Ok z).
Proof.
  intros Hresp Hd. rewrite (fetch_latest_time_data _ Hresp).
  simpl. rewrite Hd. reflexivity.
Qed.

(** An empty list, an object in place of the list, and a first object
    without [time] are each logged as [KeyError or IndexError] and
    re-raised: [IndexError] for the empty list, [KeyError] for the other
    two. *)
Theorem fetch_latest_time_malformed :
  (latest_time_response client (PList []) →
     fetch_latest_time int_of_str client =
     ([mkLog "Error fetching latest time: KeyError or IndexError" []],
      Raise IndexError)) ∧
  (∀ d, latest_time_response client (PDict d) →
     fetch_latest_time int_of_str client =
     ([mkLog "Error fetching latest time: KeyError or IndexError" []],
      Raise KeyError)) ∧
  (∀ d rest, latest_time_response client (PList (PDict d :: rest)) →
     d !! "time" = None →
     fetch_latest_time int_of_str client =
     ([mkLog "Error fetching latest time: KeyError or IndexError" []],
      Raise KeyError)).
Proof.
  split; [|split].
  - intros Hresp. rewrite (fetch_latest_time_data _ Hresp). reflexivity.
  - intros d Hresp. rewrite (fetch_latest_time_data _ Hresp). reflexivity.
  - intros d rest Hresp Hd. rewrite (fetch_latest_time_data _ Hresp).
    simpl. rewrite Hd. reflexivity.
Qed.

(** The latest time, then the roster at that time: the stations carry the
    latest time as their timestamp. *)
Theorem latest_time_then_roster (z : Z) (log1 log2 : list LogRecord)
    (stations : list Stazione) :
  fetch_latest_time int_of_str client = (log1, Ok z) →
  fetch_stations_data client z = (log2, Ok stations) →
  log1 = [] ∧ log2 = [] ∧ Forall (λ s, timestamp s = z) stations.
Proof.
  intros Hlatest Hroster. split; [|split].
  - revert Hlatest. unfold fetch_latest_time.
    destruct (_ ≫= _) as [z'|e]; [intros [= <- _]; reflexivity|].
    destruct e; intros [= _ ?]; discriminate.
  - destruct (fetch_stations_data_log _ _ _ _ Hroster) as [-> | (c & Hc & _)];
      [reflexivity | discriminate].
  - apply fetch_stations_data_Ok in Hroster as [data Hr].
    eapply Forall_impl; [eapply roster_normalized, Hr|].
    intros s [Hs _]. exact Hs.
Qed.

End StatusErrors.

(** ** The bands of the alarm *)

Section Bands.

Import apis.

Lemma SFcompare_chain a b c c1 c2 c3 :
  SFcompare a b = Some c1 → SFcompare b c = Some c2 → SFcompare a c = Some c3 →
  match chain c1 c2 with Some c' => c3 = c' | None => True end.
Proof.
  intros H1 H2 H3. destruct c1, c2; simpl; try exact I.
  - rewrite (SFcompare_Eq_l _ _ _ H1) in H3. congruence.
  - rewrite (SFcompare_Eq_l _ _ _ H1) in H3. congruence.
  - rewrite (SFcompare_Eq_l _ _ _ H1) in H3. congruence.
  - rewrite <- (SFcompare_Eq_r _ _ _ H2) in H3. congruence.
  - rewrite (SFcompare_Lt_trans _ _ _ H1 H2) in H3. congruence.
  - rewrite <- (SFcompare_Eq_r _ _ _ H2) in H3. congruence.
  - apply SFcompare_antisym in H1, H2, H3. simpl in *.
    rewrite (SFcompare_Lt_trans _ _ _ H2 H1) in H3. destruct c3; simpl in H3; congruence.
Qed.

Lemma SFcompare_None a b : SFcompare a b = None → a = S754_nan ∨ b = S754_nan.
Proof. destruct a, b; simpl; try discriminate; auto. Qed.

Lemma SFcompare_nan_r a : SFcompare a S754_nan = None.
Proof. destruct a; reflexivity. Qed.

Lemma SFleb_trans a b c : SFleb a b = true → SFleb b c = true → SFleb a c = true.
Proof.
  unfold SFleb. intros Hab Hbc.
  destruct (SFcompare a b) as [c1|] eqn:H1; [|discriminate].
  destruct (SFcompare b c) as [c2|] eqn:H2; [|discriminate].
  destruct (SFcompare a c) as [c3|] eqn:H3.
  - pose proof (SFcompare_chain _ _ _ _ _ _ H1 H2 H3) as K.
    destruct c1, c2; simpl in K; subst; try discriminate; reflexivity.
  - destruct (SFcompare_None _ _ H3) as [-> | ->].
    + simpl in H1. discriminate.
    + rewrite SFcompare_nan_r in H2. discriminate.
Qed.

(** Against ordered thresholds a value is a NaN or compares with each. *)
Lemma compare_cases x y o r :
  SFleb y o = true → SFleb o r = true →
  x = S754_nan ∨
  ∃ c1 c2 c3, SFcompare x y = Some c1 ∧ SFcompare x o = Some c2 ∧ SFcompare x r = Some c3.
Proof.
  unfold SFleb. intros Hyo Hor.
  destruct (SFcompare x y) as [c1|] eqn:H1.
  2:{ destruct (SFcompare_None _ _ H1) as [-> | ->]; [left; reflexivity|].
      simpl in Hyo. discriminate. }
  destruct (SFcompare x o) as [c2|] eqn:H2.
  2:{ destruct (SFcompare_None _ _ H2) as [-> | ->]; [left; reflexivity|].
      simpl in Hor. discriminate. }
  destruct (SFcompare x r) as [c3|] eqn:H3.
  2:{ destruct (SFcompare_None _ _ H3) as [-> | ->]; [left; reflexivity|].
      rewrite SFcompare_nan_r in Hor. discriminate. }
  right. exists c1, c2, c3. auto.
Qed.

Lemma alarm_of_ordered x yellow orange red :
  SFleb yellow orange = true → SFleb orange red = true →
  ∃ a, alarm_of x (PFloat yellow) (PFloat orange) (PFloat red) = Ok a ∧
    (a = green_circle ↔ SFleb x yellow = true) ∧
    (a = yellow_circle ↔ SFltb yellow x = true ∧ SFleb x orange = true) ∧
    (a = orange_circle ↔ SFltb orange x = true ∧ SFleb x red = true) ∧
    (a = red_circle ↔ SFleb x red = false).
Proof.
  intros Hyo Hor. rewrite alarm_of_floats. eexists. split; [reflexivity|].
  destruct (compare_cases x yellow orange red Hyo Hor)
    as [-> | (c1 & c2 & c3 & H1 & H2 & H3)].
  - unfold SFgtb, SFgeb, SFleb, SFltb. rewrite !SFcompare_nan_r. simpl.
    repeat split; intros; try discriminate; intuition discriminate.
  - unfold SFleb in Hyo, Hor.
    destruct (SFcompare yellow orange) as [cyo|] eqn:Cyo; [|discriminate].
    destruct (SFcompare orange red) as [cor|] eqn:Cor; [|discriminate].
    pose proof (SFcompare_chain _ _ _ _ _ _ H1 Cyo H2) as K1.
    pose proof (SFcompare_chain _ _ _ _ _ _ H2 Cor H3) as K2.
    unfold SFgtb, SFgeb, SFleb, SFltb.
    rewrite (SFcompare_antisym _ _ _ H1), (SFcompare_antisym _ _ _ H2), H1, H2, H3.
    destruct c1, c2, c3, cyo, cor; simpl in *; try discriminate;
      repeat split; intros; try reflexivity; try discriminate; intuition discriminate.
Qed.

(** When the thresholds are in order ([yellow <= orange <= red]), the
    alarms are bands of the value: green up to yellow, yellow above
    yellow up to orange, orange above orange up to red, and red for
    everything that is not at most red, a NaN included. *)
Theorem alarm_bands x yellow orange red :
  SFleb yellow orange = true → SFleb orange red = true →
  ∃ a, alarm_of x (PFloat yellow) (PFloat orange) (PFloat red) = Ok a ∧
    (a = green_circle ↔ SFleb x yellow = true) ∧
    (a = yellow_circle ↔ SFltb yellow x = true ∧ SFleb x orange = true) ∧
    (a = orange_circle ↔ SFltb orange x = true ∧ SFleb x red = true) ∧
    (a = red_circle ↔ SFleb x red = false).
Proof. apply alarm_of_ordered. Qed.

Lemma alarm_of_floats_cases x y o r :
  ∃ a, alarm_of x (PFloat y) (PFloat o) (PFloat r) = Ok a ∧
       (a = green_circle ∨ a = yellow_circle ∨ a = orange_circle ∨ a = red_circle).
Proof.
  rewrite alarm_of_floats. eexists. split; [reflexivity|].
  destruct (SFleb x y); [auto|].
  destruct (_ && _); [auto|]. destruct (_ && _); auto.
Qed.

(** When the thresholds are in order, the alarm does not get milder as
    the value grows. *)
Theorem alarm_monotone x x' yellow orange red a a' :
  SFleb yellow orange = true → SFleb orange red = true →
  SFleb x x' = true →
  alarm_of x (PFloat yellow) (PFloat orange) (PFloat red) = Ok a →
  alarm_of x' (PFloat yellow) (PFloat orange) (PFloat red) = Ok a' →
  (alarm_rank a ≤ alarm_rank a')%nat.
Proof.
  intros Hyo Hor Hxx Ha Ha'.
  destruct (alarm_of_ordered x yellow orange red Hyo Hor) as (b & Hb & Bg & By & Bo & Br).
  destruct (alarm_of_ordered x' yellow orange red Hyo Hor) as (b' & Hb' & Bg' & By' & Bo' & Br').
  rewrite Ha in Hb. rewrite Ha' in Hb'. injection Hb as <-. injection Hb' as <-.
  destruct (alarm_of_floats_cases x yellow orange red) as (c & Hc & Hcases).
  rewrite Ha in Hc. injection Hc as <-.
  destruct (alarm_of_floats_cases x' yellow orange red) as (c' & Hc' & Hcases').
  rewrite Ha' in Hc'. injection Hc' as <-.
  destruct Hcases' as [-> | [-> | [-> | ->]]].
  - assert (Hx : SFleb x yellow = true)
      by (eapply SFleb_trans; [exact Hxx | apply Bg'; reflexivity]).
    apply Bg in Hx as ->. reflexivity.
  - destruct (proj1 By' eq_refl) as [_ Hle].
    assert (Hx : SFleb x orange = true) by (eapply SFleb_trans; eassumption).
    destruct Hcases as [-> | [-> | [-> | ->]]]; try (vm_compute; lia).
    + destruct (proj1 Bo eq_refl) as [Hlt _].
      apply SFltb_not_leb in Hlt. congruence.
    + pose proof (proj1 Br eq_refl) as Hnot.
      rewrite (SFleb_trans _ _ _ Hx Hor) in Hnot. discriminate.
  - destruct (proj1 Bo' eq_refl) as [_ Hle].
    assert (Hx : SFleb x red = true) by (eapply SFleb_trans; eassumption).
    destruct Hcases as [-> | [-> | [-> | ->]]]; try (vm_compute; lia).
    pose proof (proj1 Br eq_refl) as Hnot. congruence.
  - destruct Hcases as [-> | [-> | [-> | ->]]]; vm_compute; lia.
Qed.

End Bands.

Lemma alarm_bands_witness :
  ∃ a, apis.alarm_of sample.f0_5 (PFloat sample.f1_0) (PFloat sample.f2_0) (PFloat sample.f3_0)
       = Ok a ∧ a = apis.green_circle.
Proof.
  destruct (alarm_bands sample.f0_5 sample.f1_0 sample.f2_0 sample.f3_0)
    as (a & Ha & Hg & _); [reflexivity | reflexivity |].
  exists a. split; [exact Ha|]. apply Hg. reflexivity.
Defined.

Lemma alarm_monotone_witness :
  (alarm_rank apis.green_circle ≤ alarm_rank apis.orange_circle)%nat.
Proof.
  apply (alarm_monotone sample.f0_5 sample.f3_0 sample.f1_0 sample.f2_0 sample.f3_0);
    reflexivity.
Defined.

(** ** The two renderers *)

Section Renderers.

Import apis.

Variable float_of_str : string → outcome spec_float.
Variable strftime_rome : Z → outcome string.

(** The method of [Stazione] and the function of the bot raise on the
    same stations, whatever their attributes hold; where they return,
    the method gives the fields of the function, but for a value equal to
    the sentinel, which it shows as not available with no alarm. *)
Theorem renderers_agree (self : Stazione) :
  apis.message_fields float_of_str strftime_rome self =
  m ← tgbot.message_fields float_of_str strftime_rome self;
  Ok (match f_value m with
      | inl x =>
          if SFeqb x UNKNOWN_VALUE
          then mkFields (f_nomestaz m) (inr "non disponibile") ""
                 (f_yellow m) (f_orange m) (f_red m) (f_timestamp m)
          else m
      | inr _ => m
      end).
Proof.
  unfold apis.message_fields, tgbot.message_fields.
  destruct (strftime_rome (timestamp self)) as [ts|e]; [|reflexivity].
  cbn [mbind outcome_bind].
  destruct (py_float float_of_str (value self)) as [x|e]; [|reflexivity].
  cbn [mbind outcome_bind].
  destruct (alarm_of x (soglia1 self) (soglia2 self) (soglia3 self)) as [a|e];
    [|reflexivity].
  cbn [mbind outcome_bind f_value].
  destruct (SFeqb x UNKNOWN_VALUE); reflexivity.
Qed.

(** A value that is a NaN is shown with the red alarm by both renderers,
    whatever the float thresholds are. *)
Theorem nan_value_is_red (self : Stazione) yellow orange red ts :
  float_station strftime_rome self S754_nan yellow orange red ts →
  ∃ m, apis.message_fields float_of_str strftime_rome self = Ok m ∧
       tgbot.message_fields float_of_str strftime_rome self = Ok m ∧
       f_value m = inl S754_nan ∧ f_alarm m = red_circle.
Proof.
  intros H.
  rewrite (apis_message_fields_floats _ _ _ _ _ _ _ _ H),
    (tgbot_message_fields_floats _ _ _ _ _ _ _ _ H).
  unfold SFgtb, SFgeb, SFleb, SFltb, SFeqb. rewrite !SFcompare_nan_r. simpl.
  eexists. split; [reflexivity|]. split; [reflexivity|]. split; reflexivity.
Qed.

(** The method of [Stazione] shows a value equal to the sentinel as not
    available, with no alarm, whatever the float thresholds are. *)
Theorem apis_sentinel_not_available (self : Stazione) yellow orange red ts :
  float_station strftime_rome self UNKNOWN_VALUE yellow orange red ts →
  apis.message_fields float_of_str strftime_rome self =
  Ok (mkFields (nomestaz self) (inr "non disponibile") ""
        (PFloat yellow) (PFloat orange) (PFloat red) ts).
Proof.
  intros H. rewrite (apis_message_fields_floats _ _ _ _ _ _ _ _ H). reflexivity.
Qed.

End Renderers.

Lemma nan_value_is_red_witness :
  ∃ m, apis.message_fields sample.float_of_str sample.strftime_rome
         (sample.station "A" (PFloat S754_nan)) = Ok m ∧
       apis.f_alarm m = apis.red_circle.
Proof.
  destruct (nan_value_is_red sample.float_of_str sample.strftime_rome
              (sample.station "A" (PFloat S754_nan))
              sample.f1_0 sample.f2_0 sample.f3_0 "18-09-2024 15:45")
    as (m & Hm & _ & _ & Ha).
  - repeat split; reflexivity.
  - exists m. split; [exact Hm | exact Ha].
Defined.

Lemma apis_sentinel_not_available_witness :
  apis.message_fields sample.float_of_str sample.strftime_rome
    (sample.station "A" (PFloat apis.UNKNOWN_VALUE))
  = Ok (apis.mkFields (PStr "A") (inr "non disponibile") ""
          (PFloat sample.f1_0) (PFloat sample.f2_0) (PFloat sample.f3_0)
          "18-09-2024 15:45").
Proof.
  apply (apis_sentinel_not_available sample.float_of_str sample.strftime_rome
           (sample.station "A" (PFloat apis.UNKNOWN_VALUE))
           sample.f1_0 sample.f2_0 sample.f3_0 "18-09-2024 15:45").
  repeat split; reflexivity.
Defined.

(** ** Null thresholds *)

(** A station built from a roster record whose three thresholds are null
    has the sentinel for each threshold, and every value above the
    sentinel is classified red. *)
Theorem null_thresholds_are_red time (d : gmap string pyval) (s : apis.Stazione)
    (x : spec_float) :
  apis.Stazione_kw time (apis.normalize d) = Ok s →
  d !! "soglia1" = Some PNone → d !! "soglia2" = Some PNone →
  d !! "soglia3" = Some PNone →
  SFltb apis.UNKNOWN_VALUE x = true →
  apis.soglia1 s = PFloat apis.UNKNOWN_VALUE ∧
  apis.soglia2 s = PFloat apis.UNKNOWN_VALUE ∧
  apis.soglia3 s = PFloat apis.UNKNOWN_VALUE ∧
  apis.alarm_of x (apis.soglia1 s) (apis.soglia2 s) (apis.soglia3 s) = Ok apis.red_circle.
Proof.
  intros Hs H1 H2 H3 Hx.
  apply Stazione_kw_Ok in Hs
    as (i & o & n & lo & la & s1 & s2 & s3 & y &
        _ & _ & _ & _ & _ & K1 & K2 & K3 & _ & _ & ->).
  rewrite normalize_lookup in K1, K2, K3. rewrite H1 in K1. rewrite H2 in K2.
  rewrite H3 in K3. simpl in K1, K2, K3.
  injection K1 as <-. injection K2 as <-. injection K3 as <-.
  split; [reflexivity|]. split; [reflexivity|]. split; [reflexivity|].
  cbn [apis.soglia1 apis.soglia2 apis.soglia3 apis.Stazione_init
       apis.Stazione_post_init apis.set_value].
  rewrite alarm_of_floats. unfold SFgtb, SFgeb.
  rewrite (SFltb_not_leb _ _ Hx), Hx, (SFltb_leb _ _ Hx). reflexivity.
Qed.

Lemma null_thresholds_are_red_witness :
  ∃ s, apis.Stazione_kw apis.base_time (apis.normalize cases.record_without_thresholds) = Ok s ∧
       apis.alarm_of sample.f0_5 (apis.soglia1 s) (apis.soglia2 s) (apis.soglia3 s)
       = Ok apis.red_circle.
Proof.
  eexists. split; [vm_compute; reflexivity|].
  eapply (null_thresholds_are_red apis.base_time cases.record_without_thresholds _
            sample.f0_5); reflexivity.
Defined.

(** ** Enrichment twice *)

Section EnrichmentTwice.

Import apis.

Variable int_of_str : string → outcome Z.
Variable client : Client.

Local Abbreviation fetch := (fetch_time_series int_of_str client).
Local Abbreviation run := (enrich_data int_of_str client).

(** The result of a fetch depends on the station through its identifier
    alone. *)
Lemma fetch_time_series_by_idstazione (s s' : Stazione) :
  idstazione s' = idstazione s → (fetch s').2 = (fetch s).2.
Proof.
  intros Hid. unfold fetch_time_series. rewrite Hid.
  destruct (_ ≫= _) as [l|e]; [reflexivity|]. destruct e; reflexivity.
Qed.

Lemma enrich_loop_twice (stations : list Stazione) :
  let again l := enrich_loop ((λ s, (s, (fetch s).2)) <$> l) in
  (again (again stations).1.1).1.1 = (again stations).1.1 ∧
  (again (again stations).1.1).2 = (again stations).2.
Proof.
  simpl. induction stations as [|s stations [IHs IHr]]; [split; reflexivity|].
  rewrite fmap_cons. cbn [enrich_loop].
  destruct (fetch s).2 as [dati|e] eqn:Hs.
  - destruct (max_by_t dati) as [r|e] eqn:Hmax.
    + destruct (enrich_loop ((λ s, (s, (fetch s).2)) <$> stations))
        as [[st log] res] eqn:Hloop.
      cbn [fst snd] in *. rewrite fmap_cons. cbn [enrich_loop].
      rewrite (fetch_time_series_by_idstazione s
                 (set_timestamp (set_value s (v r)) (t r)) eq_refl), Hs, Hmax.
      destruct (enrich_loop ((λ s, (s, (fetch s).2)) <$> st)) as [[st' log'] res'].
      cbn [fst snd] in *. subst. split; reflexivity.
    + cbn [fst snd]. rewrite <- list_fmap_compose, list_fmap_id.
      rewrite fmap_cons. cbn [enrich_loop]. rewrite Hs, Hmax.
      cbn [fst snd]. rewrite <- list_fmap_compose, list_fmap_id.
      split; reflexivity.
  - destruct (enrich_loop ((λ s, (s, (fetch s).2)) <$> stations))
      as [[st log] res] eqn:Hloop.
    cbn [fst snd] in *. rewrite fmap_cons. cbn [enrich_loop]. rewrite Hs.
    destruct (enrich_loop ((λ s, (s, (fetch s).2)) <$> st)) as [[st' log'] res'].
    cbn [fst snd] in *. subst. split; reflexivity.
Qed.

(** With the same answers of the upstream service, enriching the enriched
    stations again changes nothing and ends the same way. *)
Theorem enrich_data_twice (stations : list Stazione) :
  (run (run stations).1.1).1.1 = (run stations).1.1 ∧
  (run (run stations).1.1).2 = (run stations).2.
Proof.
  pose proof (enrich_loop_twice stations) as H. simpl in H.
  rewrite (enrich_data_loop _ _ stations).
  destruct (enrich_loop ((λ s, (s, (fetch s).2)) <$> stations)) as [[st log] res].
  cbn [fst snd] in *. rewrite (enrich_data_loop _ _ st).
  destruct (enrich_loop ((λ s, (s, (fetch s).2)) <$> st)) as [[st' log'] res'].
  exact H.
Qed.

End EnrichmentTwice.

(** ** Examples of status errors and of the latest time *)

Lemma failing_error_response url : error_response (cases.failing 503) url 503.
Proof. eexists. split; [reflexivity|]. split; [reflexivity | lia]. Qed.

Lemma status_error_logged_and_raised_witness :
  apis.fetch_stations_data (cases.failing 503) apis.base_time =
  ([apis.mkLog "Error fetching stations data: %s" [apis.ArgStatus 503]],
   Raise (HTTPStatusError 503)).
Proof.
  destruct (status_error_logged_and_raised sample.int_of_str (cases.failing 503) 503)
    as (H & _ & _).
  apply H, failing_error_response.
Defined.

Lemma sample_latest_time_response :
  latest_time_response
    (sample.answering
       (PList [PDict sample.time_record; PDict (sample.record "A" (PFloat sample.f0_5))]))
    (PList (PDict sample.time_record :: [PDict (sample.record "A" (PFloat sample.f0_5))])).
Proof. eexists. split; [reflexivity|]. split; [simpl; lia | reflexivity]. Qed.

Lemma fetch_latest_time_first_record_witness :
  apis.fetch_latest_time sample.int_of_str
    (sample.answering
       (PList [PDict sample.time_record; PDict (sample.record "A" (PFloat sample.f0_5))]))
  = ([], Ok apis.base_time).
Proof.
  apply (fetch_latest_time_first_record sample.int_of_str _ sample.time_record
           [PDict (sample.record "A" (PFloat sample.f0_5))] apis.base_time).
  - exact sample_latest_time_response.
  - reflexivity.
Defined.

Lemma fetch_latest_time_malformed_witness :
  apis.fetch_latest_time sample.int_of_str (sample.answering (PList []))
  = ([apis.mkLog "Error fetching latest time: KeyError or IndexError" []],
     Raise IndexError).
Proof.
  destruct (fetch_latest_time_malformed sample.int_of_str (sample.answering (PList [])))
    as (H & _ & _).
  apply H. eexists. split; [reflexivity|]. split; [simpl; lia | reflexivity].
Defined.

Lemma latest_time_then_roster_witness :
  Forall (λ s, apis.timestamp s = apis.base_time)
    [apis.Stazione_init apis.base_time (PStr "A") (PInt 1) (PStr "A")
       (PStr "12.24") (PStr "44.13")
       (PFloat sample.f1_0) (PFloat sample.f2_0) (PFloat sample.f3_0) (PFloat sample.f0_5)].
Proof.
  apply (latest_time_then_roster sample.int_of_str
           (sample.answering
              (PList [PDict sample.time_record;
                      PDict (sample.record "A" (PFloat sample.f0_5))]))
           apis.base_time [] []).
  - vm_compute. reflexivity.
  - vm_compute. reflexivity.
Defined.
